(** * Verification model of the ccAutomator orchestration core

    Shallow embedding of the Python sources
    [src/automator.py], [src/automator_utils.py], [src/ccAutomator.py] and
    [src/mixins/*.py]: print search and selection, canvas stabilization,
    the art asset pipeline, the overwrite pre-check and the main loop. *)

From Stdlib Require Import String Ascii List Bool Arith ZArith Lia.
Import ListNotations.
Open Scope string_scope.

(* ================================================================= *)
(** ** Python string helpers *)

Module PyStr.

(** Text is a sequence of Latin-1 code points, one [ascii] (8 bits) each;
    text with code points above 255 is outside the model.  [str.lower()]
    on one code point: the upper case letters are A-Z (65-90) and the
    Latin-1 capitals 192-214 and 216-222, each 32 below its lower case. *)
Definition lower_char (c : ascii) : ascii :=
  let n := nat_of_ascii c in
  if ((65 <=? n)%nat && (n <=? 90)%nat) || ((192 <=? n)%nat && (n <=? 214)%nat)
     || ((216 <=? n)%nat && (n <=? 222)%nat)
  then ascii_of_nat (n + 32)%nat else c.

Fixpoint lower (s : string) : string :=
  match s with
  | EmptyString => EmptyString
  | String c r => String (lower_char c) (lower r)
  end.

(** [str.startswith]. *)
Definition startswith (s p : string) : bool := String.prefix p s.

(** [str.isspace()] on a Latin-1 code point, the characters [str.strip()]
    removes and regex [\s] matches: 9-13, 28-32, 133 and 160. *)
Definition is_space (c : ascii) : bool :=
  let n := nat_of_ascii c in
  ((9 <=? n)%nat && (n <=? 13)%nat) || ((28 <=? n)%nat && (n <=? 32)%nat)
  || Nat.eqb n 133 || Nat.eqb n 160.

Fixpoint lstrip (s : string) : string :=
  match s with
  | EmptyString => EmptyString
  | String c r => if is_space c then lstrip r else s
  end.

Fixpoint rev_str (s : string) (acc : string) : string :=
  match s with
  | EmptyString => acc
  | String c r => rev_str r (String c acc)
  end.

(** [str.strip()]. *)
Definition strip (s : string) : string :=
  rev_str (lstrip (rev_str (lstrip s) EmptyString)) EmptyString.

(** Splits [s] at the first occurrence of [d]: the text before it and the
    text after it, or [None] when [d] does not occur. *)
Fixpoint split_at_char (d : ascii) (s : string) : option (string * string) :=
  match s with
  | EmptyString => None
  | String c r =>
      if Ascii.eqb c d then Some (EmptyString, r)
      else match split_at_char d r with
           | Some (a, b) => Some (String c a, b)
           | None => None
           end
  end.

(** Python truthiness of a string. *)
Definition truthy (s : string) : bool :=
  match s with EmptyString => false | _ => true end.

Fixpoint mem (x : string) (l : list string) : bool :=
  match l with
  | [] => false
  | y :: r => String.eqb x y || mem x r
  end.

End PyStr.

(* ================================================================= *)
(** ** Print search and selection ([_get_and_filter_prints],
    [_select_prints_from_candidate], Card Conjurer mode of
    [process_and_capture_card]) *)

Module Prints.
Import PyStr.

(** The [match_data] dict built for one dropdown option. *)
Record print := mkPrint {
  index : string;
  text : string;
  set_name : option string;
  collector_number : option string
}.

(** [re.search(r'\(([^#]+?)\s*#([^)]+)\)', text)] followed by [.strip()] of
    both groups.  A match starts at a ['('], group 1 runs up to the first
    ['#'] after it (at least one character; the lazy group and [\s*] only
    move trailing spaces, which [strip] drops), group 2 runs from there up
    to the first [')'] (at least one character). *)
Definition try_set_info_at (rest : string) : option (string * string) :=
  match split_at_char "#" rest with
  | Some (g1, after) =>
      if truthy g1 then
        match split_at_char ")" after with
        | Some (g2, _) => if truthy g2 then Some (strip g1, strip g2) else None
        | None => None
        end
      else None
  | None => None
  end.

Fixpoint set_info (s : string) : option (string * string) :=
  match s with
  | EmptyString => None
  | String c r =>
      if Ascii.eqb c "(" then
        match try_set_info_at r with
        | Some m => Some m
        | None => set_info r
        end
      else set_info r
  end.

(** The exact-match guard on one option text. *)
Definition is_exact_match (card_name option_text : string) : bool :=
  startswith (lower option_text) (lower card_name) &&
  (let n := String.length card_name in
   Nat.eqb (String.length option_text) n || String.eqb (substring n 2 option_text) " (").

Definition match_data (value option_text : string) : print :=
  match set_info option_text with
  | Some (s, cn) => mkPrint value option_text (Some s) (Some cn)
  | None => mkPrint value option_text None None
  end.

(** The loop over [dropdown.options]; an option is its [(value, text)]. *)
Definition exact_matches (card_name : string) (options : list (string * string))
  : list print :=
  map (fun o => match_data (fst o) (snd o))
      (filter (fun o => is_exact_match card_name (snd o)) options).

(** [p['set_name'] and p['set_name'].lower() in sets]. *)
Definition set_in (sets : list string) (p : print) : bool :=
  match set_name p with
  | Some s => truthy s && mem (lower s) sets
  | None => false
  end.

Definition nonempty {A} (l : list A) : bool :=
  match l with [] => false | _ => true end.

(** Filtering part of [_get_and_filter_prints] on the exact matches. *)
Definition filter_prints (all_exact_matches : list print)
    (include_sets exclude_sets : list string) : list print * bool :=
  match all_exact_matches with
  | [] => ([], false)
  | _ =>
    let prints_after_exclude :=
      if nonempty exclude_sets
      then filter (fun p => negb (set_in exclude_sets p)) all_exact_matches
      else all_exact_matches in
    let final_filtered_prints :=
      if nonempty include_sets
      then filter (set_in include_sets) prints_after_exclude
      else prints_after_exclude in
    if nonempty include_sets && negb (nonempty final_filtered_prints)
    then (prints_after_exclude, true)
    else (final_filtered_prints, false)
  end.

(** [_get_and_filter_prints] once the dropdown has been read. *)
Definition get_and_filter_prints (card_name : string)
    (options : list (string * string))
    (include_sets exclude_sets : list string) : list print * bool :=
  filter_prints (exact_matches card_name options) include_sets exclude_sets.

(** [_select_prints_from_candidate]; [rnd] is the index drawn by
    [random.choice]. *)
Definition select_prints_from_candidate (rnd : nat) (candidate_prints : list print)
    (selection_strategy : string) : list print :=
  match candidate_prints with
  | [] => []
  | p :: _ =>
      if String.eqb selection_strategy "all" then candidate_prints
      else if String.eqb selection_strategy "latest" then [p]
      else if String.eqb selection_strategy "earliest" then [last candidate_prints p]
      else if String.eqb selection_strategy "random"
      then [nth (Nat.modulo rnd (length candidate_prints)) candidate_prints p]
      else []
  end.

(** Card Conjurer mode of [process_and_capture_card]: [None] is the early
    [return] for [no_match_selection = 'skip']. *)
Definition cardconjurer_prints (rnd : nat) (card_name : string)
    (options : list (string * string)) (include_sets exclude_sets : list string)
    (set_selection_strategy no_match_selection : string) : option (list print) :=
  let (all_cc_prints, include_filter_failed_cc) :=
    get_and_filter_prints card_name options include_sets exclude_sets in
  if include_filter_failed_cc then
    if String.eqb no_match_selection "skip" then None
    else Some (select_prints_from_candidate rnd all_cc_prints no_match_selection)
  else Some (select_prints_from_candidate rnd all_cc_prints set_selection_strategy).

(** Whether two prints carry the same set code. *)
Definition same_set (p q : print) : bool :=
  match set_name p, set_name q with
  | Some a, Some b => String.eqb a b
  | None, None => true
  | _, _ => false
  end.

(** The Card Conjurer selection as the help text of [--set-selection]
    (ccAutomator.py) and the specification describe it, for comparison with
    [select_prints_from_candidate]: 'latest', 'earliest' and 'random' pick a
    representative print, then capture every candidate print of its set. *)
Definition spec_select_prints_from_candidate (rnd : nat) (candidate_prints : list print)
    (selection_strategy : string) : list print :=
  if String.eqb selection_strategy "latest" || String.eqb selection_strategy "earliest"
     || String.eqb selection_strategy "random"
  then match select_prints_from_candidate rnd candidate_prints selection_strategy with
       | q :: _ => filter (same_set q) candidate_prints
       | [] => []
       end
  else select_prints_from_candidate rnd candidate_prints selection_strategy.

End Prints.

(* ================================================================= *)
(** ** Canvas stabilization ([_wait_for_canvas_stabilization]) *)

Module Canvas.

(** A canvas hash as returned by [_get_canvas_hash]: the 32-bit integer whose
    [toString()] the page returns (never the empty string), or [None] when
    the canvas is not ready.  The wait is modelled on the sequence of samples
    taken before [STABILIZE_TIMEOUT] elapses. *)
Definition hash := option Z.

Definition STABILITY_CHECKS : nat := 3.

Record wait_state := mkWait { last_hash : hash; stable_count : nat }.

Definition hash_eqb (a b : hash) : bool :=
  match a, b with
  | Some x, Some y => Z.eqb x y
  | None, None => true
  | _, _ => false
  end.

(** One pass of the [while] body: [inl] is a [return], [inr] the state for
    the next pass. *)
Definition wait_step (wait_for_change : bool) (initial_hash : hash)
    (st : wait_state) (current_hash : hash) : hash + wait_state :=
  match current_hash with
  | None => inr st
  | Some h =>
      if wait_for_change && (match initial_hash with Some _ => true | None => false end)
         && hash_eqb current_hash initial_hash
      then inr st
      else
        let st' := if hash_eqb current_hash (last_hash st)
                   then mkWait (last_hash st) (S (stable_count st))
                   else mkWait current_hash 1 in
        if Nat.leb STABILITY_CHECKS (stable_count st') then inl current_hash
        else inr st'
  end.

Fixpoint wait_loop (wait_for_change : bool) (initial_hash : hash)
    (st : wait_state) (samples : list hash) : hash :=
  match samples with
  | [] => None
  | s :: rest =>
      match wait_step wait_for_change initial_hash st s with
      | inl r => r
      | inr st' => wait_loop wait_for_change initial_hash st' rest
      end
  end.

(** [CanvasMixin._wait_for_canvas_stabilization]: when no initial hash is
    given but a change is awaited, one sample is taken before the loop. *)
Definition wait_for_canvas_stabilization (initial_hash : hash)
    (wait_for_change : bool) (samples : list hash) : hash :=
  match initial_hash, wait_for_change, samples with
  | None, true, s0 :: rest => wait_loop true s0 (mkWait None 0) rest
  | None, true, [] => None
  | _, _, _ => wait_loop wait_for_change initial_hash (mkWait None 0) samples
  end.

(** [CardConjurerAutomator._wait_for_canvas_stabilization] of
    [src/automator.py]: the gate [current_hash == initial_hash] is always on. *)
Fixpoint legacy_wait_loop (initial_hash : hash) (st : wait_state)
    (samples : list hash) : hash :=
  match samples with
  | [] => None
  | None :: rest => legacy_wait_loop initial_hash st rest
  | (Some h as cur) :: rest =>
      if hash_eqb cur initial_hash then legacy_wait_loop initial_hash st rest
      else
        let st' := if hash_eqb cur (last_hash st)
                   then mkWait (last_hash st) (S (stable_count st))
                   else mkWait cur 1 in
        if Nat.leb STABILITY_CHECKS (stable_count st') then cur
        else legacy_wait_loop initial_hash st' rest
  end.

Definition legacy_wait_for_canvas_stabilization (initial_hash : hash)
    (samples : list hash) : hash :=
  match initial_hash, samples with
  | None, s0 :: rest => legacy_wait_loop s0 (mkWait None 0) rest
  | None, [] => None
  | Some _, _ => legacy_wait_loop initial_hash (mkWait None 0) samples
  end.

End Canvas.

(* ================================================================= *)
(** ** Storage probes and the overwrite pre-check *)

Module Overwrite.
Import PyStr.

(** Outcome of [requests.head(url, ...)]: a final response (status code and
    [Last-Modified] header) or a [RequestException]. *)
Inductive head_result :=
| HeadResponse (status_code : Z) (last_modified : option string)
| HeadException.

Section Probes.
(** [datetime.strptime(s.replace(' GMT', ''), '%a, %d %b %Y %H:%M:%S')] as
    seconds since the epoch, [None] for a [ValueError]. *)
Variable parse_http_date : string -> option Z.

(** [check_server_file_details] of [automator_utils.py] / [automator.py]. *)
Definition check_server_file_details (url : string) (r : head_result)
  : bool * option Z :=
  if negb (truthy url) then (false, None) else
  match r with
  | HeadResponse status lm =>
      if Z.eqb status 200 then
        match lm with
        | Some s =>
            if truthy s then
              match parse_http_date s with
              | Some t => (true, Some t)
              | None => (true, None)
              end
            else (true, None)
        | None => (true, None)
        end
      else if Z.eqb status 404 then (false, None)
      else (false, None)
  | HeadException => (false, None)
  end.
End Probes.

(** [_check_if_file_exists_on_server]. *)
Definition check_if_file_exists_on_server (public_url : string) (r : head_result) : bool :=
  if negb (truthy public_url) then false else
  match r with
  | HeadResponse status _ => if Z.eqb status 200 then true else false
  | HeadException => false
  end.

(** The OVERWRITE PRE-CHECK of [process_and_capture_card]: [should_skip].
    Timestamps are seconds since the epoch; [upload_path] is [None] when
    unset or empty. *)
Definition should_skip (upload_path : option string) (exists_ : bool)
    (last_modified : option Z) (overwrite : bool)
    (overwrite_older_than_dt overwrite_newer_than_dt : option Z) : bool :=
  match upload_path with
  | None => false
  | Some _ =>
      if exists_ then
        if overwrite then false
        else match overwrite_older_than_dt with
             | Some older =>
                 match last_modified with
                 | Some t => negb (Z.ltb t older)
                 | None => true
                 end
             | None =>
                 match overwrite_newer_than_dt with
                 | Some newer =>
                     match last_modified with
                     | Some t => negb (Z.ltb newer t)
                     | None => true
                     end
                 | None => true
                 end
             end
      else false
  end.

(** The pre-check as called in the loop: probe, then decide. *)
Definition precheck (parse_http_date : string -> option Z)
    (upload_path : option string) (check_url : string) (r : head_result)
    (overwrite : bool) (older newer : option Z) : bool :=
  let (exists_, last_modified) := check_server_file_details parse_http_date check_url r in
  should_skip upload_path exists_ last_modified overwrite older newer.

End Overwrite.

(* ================================================================= *)
(** ** Art asset pipeline ([_prepare_art_asset] of [src/automator.py]) *)

Module Art.
Import PyStr.

(** Byte strings are strings of 8-bit characters. *)
Definition bytes := string.

Fixpoint bytes_of (l : list nat) : bytes :=
  match l with
  | [] => EmptyString
  | n :: r => String (ascii_of_nat n) (bytes_of r)
  end.

(** [get_image_mime_type_and_extension]; [pil_format] is the [format] that
    [PIL.Image.open] reports, [None] when it raises. *)
Definition get_image_mime_type_and_extension (pil_format : bytes -> option string)
    (image_bytes : bytes) : string * string :=
  match pil_format image_bytes with
  | Some "JPEG" => ("image/jpeg", ".jpg")
  | Some "PNG" => ("image/png", ".png")
  | Some "GIF" => ("image/gif", ".gif")
  | _ =>
    if startswith image_bytes (bytes_of [255; 216; 255]) then ("image/jpeg", ".jpg")
    else if startswith image_bytes (bytes_of [137; 80; 78; 71; 13; 10; 26; 10])
    then ("image/png", ".png")
    else if startswith image_bytes "GIF87a" || startswith image_bytes "GIF89a"
    then ("image/gif", ".gif")
    else if startswith image_bytes "RIFF" && Nat.ltb 12 (String.length image_bytes)
            && String.eqb (substring 8 4 image_bytes) "WEBP"
    then ("image/webp", ".webp")
    else ("application/octet-stream", "")
  end.

(** Configuration fields read by the pipeline; an unset or empty string
    option is [None]. *)
Record config := mkConfig {
  image_server_url : option string;
  download_dir : option string;
  upscale_art : bool;
  ilaria_url : option string;
  upscaler_model : string;
  upscaler_factor : nat
}.

(** The collaborators: the Scryfall lookup [_get_scryfall_art_crop_url]
    (art_crop URL and type line, [None] for [(None, None)]), the image GET
    [_fetch_image_bytes], PIL's format detection, the Ilaria upscaler
    [_upscale_image_with_ilaria] (given the source path or URL),
    [os.path.splitext] of the URL without query, [generate_safe_filename],
    and the path builders [urljoin(server, os.path.join(art_path, sub, f))]
    and [Path(download_dir) / art_path / sub / f]; [write_ok sub f] is
    whether writing [f] under [sub] succeeds (the local [open]/[write], or
    the upload [PUT] without [HTTPError] or [RequestException]: both are
    caught and only logged), and [server_head sub f] the answer of
    [requests.head] on the URL of a file the image server holds. *)
Record env := mkEnv {
  scryfall_art_crop : string -> string -> string -> option (string * string);
  fetch_image_bytes : string -> option bytes;
  pil_format : bytes -> option string;
  upscale_with_ilaria : option string -> option bytes;
  url_ext : string -> string;
  safe_filename : string -> string;
  server_art_url : string -> string -> string -> string;
  local_art_path : string -> string -> string -> string;
  write_ok : string -> string -> bool;
  server_head : string -> string -> Overwrite.head_result
}.

(** The art store: files present on the image server and under the local
    download directory, keyed by (sub directory, file name). *)
Record store := mkStore {
  server_files : list (string * string);
  local_files : list (string * string)
}.

Definition key_eqb (a b : string * string) : bool :=
  String.eqb (fst a) (fst b) && String.eqb (snd a) (snd b).

Definition key_mem (k : string * string) (l : list (string * string)) : bool :=
  existsb (key_eqb k) l.

(** Calls to the expensive collaborators, in order. *)
Inductive event :=
| EvFetch (url : string)
| EvUpscale (source : option string)
| EvSave (sub filename : string).

(** A Python [(url, type_line)] tuple, or the bare [None] of line 819. *)
Inductive prep_result :=
| PrepNone
| PrepPair (final_art_url : option string) (type_line : option string).

(** [_save_or_upload_image]: local save wins over upload; a failed write
    or upload leaves the store as it was. *)
Definition save_or_upload_image (c : config) (e : env) (st : store) (img : bytes)
    (sub filename : string) : store * list event :=
  if negb (truthy img) then (st, []) else
  match download_dir c with
  | Some _ => (if write_ok e sub filename
               then mkStore (server_files st) ((sub, filename) :: local_files st)
               else st,
               [EvSave sub filename])
  | None =>
      match image_server_url c with
      | Some _ => (if write_ok e sub filename
                   then mkStore ((sub, filename) :: server_files st) (local_files st)
                   else st,
                   [EvSave sub filename])
      | None => (st, [])
      end
  end.

(** [_check_if_file_exists_on_server(urljoin(server, ...))]: the file is
    there and the [HEAD] on its URL answers 200. *)
Definition server_has (e : env) (st : store) (s sub f : string) : bool :=
  key_mem (sub, f) (server_files st) &&
  Overwrite.check_if_file_exists_on_server (server_art_url e s sub f) (server_head e sub f).

(** The hosted URL assigned after a save: server URL first, else local path. *)
Definition hosted_url (c : config) (e : env) (sub filename : string) : option string :=
  match image_server_url c with
  | Some s => Some (server_art_url e s sub filename)
  | None =>
      match download_dir c with
      | Some d => Some (local_art_path e d sub filename)
      | None => None
      end
  end.

Definition initial_ext (e : env) (art_crop_url : string) : string :=
  let g := url_ext e art_crop_url in
  if truthy g && mem (lower g) [".jpg"; ".jpeg"; ".png"; ".gif"; ".webp"]
  then lower g else ".jpg".

Definition possible_extensions (ext : string) : list string :=
  ext :: filter (fun x => negb (String.eqb x ext)) [".jpg"; ".png"; ".jpeg"; ".webp"; ".gif"].

(** Stage 1: the loop over [possible_extensions]. *)
Fixpoint probe_original (c : config) (e : env) (st : store) (base : string)
    (exts : list string) : option string :=
  match exts with
  | [] => None
  | x :: rest =>
      let f := base ++ x in
      let local_check :=
        match download_dir c with
        | Some d =>
            if key_mem ("original", f) (local_files st)
            then Some (match image_server_url c with
                       | Some s => server_art_url e s "original" f
                       | None => local_art_path e d "original" f
                       end)
            else probe_original c e st base rest
        | None => probe_original c e st base rest
        end in
      match image_server_url c with
      | Some s =>
          if server_has e st s "original" f
          then Some (server_art_url e s "original" f)
          else local_check
      | None => local_check
      end
  end.

Fixpoint digits (fuel n : nat) (acc : string) : string :=
  match fuel with
  | 0 => acc
  | S k =>
      let acc' := String (ascii_of_nat (48 + Nat.modulo n 10)) acc in
      if Nat.ltb n 10 then acc' else digits k (Nat.div n 10) acc'
  end.

(** [str(n)] for a natural number. *)
Definition nat_to_string (n : nat) : string := digits (S n) n EmptyString.

Definition first_some (a b : option string) : option string :=
  match a with Some _ => a | None => b end.

(** Stage 3: the upscaled copy. *)
Definition upscale_stage (c : config) (e : env) (st : store)
    (base art_crop_url : string) (hosted_original : option string)
  : option string * store * list event :=
  let upscaled_dir :=
    safe_filename e (upscaler_model c) ++ "-" ++ nat_to_string (upscaler_factor c) ++ "x" in
  let upscaled_filename_check := base ++ ".png" in
  let found :=
    (match image_server_url c with
     | Some s => server_has e st s upscaled_dir upscaled_filename_check
     | None => false
     end) ||
    (match download_dir c with
     | Some _ => key_mem (upscaled_dir, upscaled_filename_check) (local_files st)
     | None => false
     end) in
  if found then (hosted_url c e upscaled_dir upscaled_filename_check, st, [])
  else
    let source := match download_dir c with
                  | Some _ => hosted_original
                  | None => Some art_crop_url
                  end in
    match upscale_with_ilaria e source with
    | Some upscaled_bytes =>
        if truthy upscaled_bytes then
          let upscaled_ext :=
            snd (get_image_mime_type_and_extension (pil_format e) upscaled_bytes) in
          let upscaled_filename :=
            base ++ (if truthy upscaled_ext then upscaled_ext else ".png") in
          let (st', evs) := save_or_upload_image c e st upscaled_bytes upscaled_dir upscaled_filename in
          (hosted_url c e upscaled_dir upscaled_filename, st', EvUpscale source :: evs)
        else (None, st, [EvUpscale source])
    | None => (None, st, [EvUpscale source])
    end.

(** Stages 3 and 4, once the original is settled. *)
Definition finish_art_asset (c : config) (e : env) (st : store)
    (base art_crop_url type_line : string) (hosted_original : option string)
    (original_bytes : option bytes) (evs : list event)
  : prep_result * store * list event :=
  let '(hosted_upscaled, st2, evs2) :=
    if upscale_art c
       && (match original_bytes with Some _ => true | None => false end)
       && (match ilaria_url c with Some _ => true | None => false end)
    then upscale_stage c e st base art_crop_url hosted_original
    else (None, st, []) in
  let final_art_source_url :=
    match first_some hosted_upscaled hosted_original with
    | Some u => u
    | None => art_crop_url
    end in
  (PrepPair (Some final_art_source_url) (Some type_line), st2, app evs evs2).

(** [_prepare_art_asset (card_name, set_code, collector_number)]: its
    result, the store afterwards and the collaborator calls made. *)
Definition prepare_art_asset (c : config) (e : env) (st : store)
    (card_name set_code collector_number : string)
  : prep_result * store * list event :=
  match scryfall_art_crop e card_name set_code collector_number with
  | None => (PrepPair None None, st, [])
  | Some (art_crop_url, type_line) =>
    if negb (truthy art_crop_url) then (PrepPair None None, st, []) else
    let ext0 := initial_ext e art_crop_url in
    let base := safe_filename e card_name ++ "_" ++ safe_filename e set_code ++ "_"
                ++ safe_filename e collector_number in
    let hosted0 :=
      match image_server_url c, download_dir c with
      | None, None => None
      | _, _ => probe_original c e st base (possible_extensions ext0)
      end in
    if (match hosted0 with None => true | Some _ => false end) || upscale_art c then
      match fetch_image_bytes e art_crop_url with
      | Some b =>
          if truthy b then
            let ext := snd (get_image_mime_type_and_extension (pil_format e) b) in
            let actual_ext := if truthy ext then ext else ext0 in
            match hosted0 with
            | None =>
                let filename_to_output := base ++ actual_ext in
                let (st1, evs1) := save_or_upload_image c e st b "original" filename_to_output in
                finish_art_asset c e st1 base art_crop_url type_line
                  (hosted_url c e "original" filename_to_output) (Some b)
                  (EvFetch art_crop_url :: evs1)
            | Some _ =>
                finish_art_asset c e st base art_crop_url type_line hosted0 (Some b)
                  [EvFetch art_crop_url]
            end
          else (PrepNone, st, [EvFetch art_crop_url])
      | None => (PrepNone, st, [EvFetch art_crop_url])
      end
    else finish_art_asset c e st base art_crop_url type_line hosted0 None []
  end.

(** The caller's [final_art_url, type_line = self._prepare_art_asset(...)]:
    [None] is the [TypeError] raised when unpacking a bare [None]. *)
Definition unpack_prep (r : prep_result) : option (option string * option string) :=
  match r with
  | PrepNone => None
  | PrepPair u t => Some (u, t)
  end.

Definition is_fetch (ev : event) : bool :=
  match ev with EvFetch _ => true | _ => false end.

Definition is_upscale (ev : event) : bool :=
  match ev with EvUpscale _ => true | _ => false end.

(** Two calls with the same arguments, the second against the store the
    first one left. *)
Definition prepare_twice (c : config) (e : env) (st : store)
    (card_name set_code collector_number : string)
  : (prep_result * list event) * (prep_result * list event) :=
  let '(r1, st1, ev1) := prepare_art_asset c e st card_name set_code collector_number in
  let '(r2, _, ev2) := prepare_art_asset c e st1 card_name set_code collector_number in
  ((r1, ev1), (r2, ev2)).

(** Whether stage 1 finds [f] in the configured stores. *)
Definition original_hit (c : config) (e : env) (st : store) (f : string) : bool :=
  (match image_server_url c with
   | Some s => server_has e st s "original" f
   | None => false
   end) ||
  (match download_dir c with
   | Some _ => key_mem ("original", f) (local_files st)
   | None => false
   end).

(** Every write and upload succeeds. *)
Definition writes_succeed (e : env) : Prop :=
  forall sub f, write_ok e sub f = true.

(** The [HEAD] on every file the image server holds answers 200. *)
Definition probes_succeed (c : config) (e : env) : Prop :=
  forall s sub f, image_server_url c = Some s ->
  Overwrite.check_if_file_exists_on_server (server_art_url e s sub f) (server_head e sub f)
  = true.

End Art.

(* ================================================================= *)
(** ** Per-card capture loop and the selenium main loop of [ccAutomator.main] *)

Module Main.
Import Art.

(** How a call returns to its caller: normally, or by raising. *)
Inductive outcome :=
| Returned
| Raised (exc : string).

(** What one print meets in the capture loop of [process_and_capture_card]:
    the overwrite pre-check's [should_skip], the value [_prepare_art_asset]
    returns, and whether [apply_white_border] re-raises. *)
Record print_input := mkPrintInput {
  pi_should_skip : bool;
  pi_prep : prep_result;
  pi_border_raises : bool
}.

(** One iteration of the capture loop.  Canvas capture failures [continue]
    and save/upload errors are caught inside the loop, so they return. *)
Definition capture_print (art_configured apply_white_border_on_capture : bool)
    (p : print_input) : outcome :=
  if pi_should_skip p then Returned else
  let after_art :=
    if apply_white_border_on_capture && pi_border_raises p
    then Raised "white border error" else Returned in
  if art_configured then
    match unpack_prep (pi_prep p) with
    | None => Raised "TypeError: cannot unpack non-iterable NoneType object"
    | Some _ => after_art
    end
  else after_art.

(** [process_and_capture_card] from its list of prints to capture: an empty
    list (no exact match, filter skip) returns at once. *)
Fixpoint process_and_capture_card (art_configured apply_white_border_on_capture : bool)
    (prints_to_capture : list print_input) : outcome :=
  match prints_to_capture with
  | [] => Returned
  | p :: rest =>
      match capture_print art_configured apply_white_border_on_capture p with
      | Returned => process_and_capture_card art_configured apply_white_border_on_capture rest
      | Raised x => Raised x
      end
  end.

(** The [for] loop over [cards_to_process]: the cards attempted, and the
    exception that left the loop, if any. *)
Fixpoint main_loop (process : string -> outcome) (cards : list string)
  : list string * option string :=
  match cards with
  | [] => ([], None)
  | c :: rest =>
      match process c with
      | Returned => let (attempted, exc) := main_loop process rest in (c :: attempted, exc)
      | Raised x => ([c], Some x)
      end
  end.

(** [main] in selenium mode from the [with] statement on: [setup_ok] is
    whether the [CardConjurerAutomator(...)] call and the frame setup
    return (whether the calls [main] ships do is [main_selenium_shipped]
    below); the outer [except Exception] prints a critical error and
    [sys.exit(1)].  The result is the cards attempted and the exit status. *)
Definition main_selenium (setup_ok : bool) (process : string -> outcome)
    (cards : list string) : list string * nat :=
  if setup_ok then
    let (attempted, exc) := main_loop process cards in
    (attempted, match exc with None => 0 | Some _ => 1 end)
  else ([], 1).

(** A Python call with keyword arguments: a keyword the callee's signature
    does not name raises [TypeError] before the body runs. *)
Definition call_with_kwargs (params kwargs : list string) (body : outcome) : outcome :=
  if forallb (fun k => PyStr.mem k params) kwargs then body
  else Raised "TypeError: unexpected keyword argument".

(** The parameters of [CardConjurerAutomator.process_and_capture_card]. *)
Definition process_and_capture_card_params : list string :=
  ["card_name"; "is_priming"].

(** The selenium loop as [main] writes its call:
    [automator.process_and_capture_card(card_name, category=category)]. *)
Definition main_selenium_call (setup_ok : bool) (process : string -> outcome)
    (cards : list string) : list string * nat :=
  main_selenium setup_ok
    (fun card => call_with_kwargs process_and_capture_card_params ["category"]
                   (process card))
    cards.

(** The parameters of [CardConjurerAutomator.__init__] (automator.py). *)
Definition automator_init_params : list string :=
  ["url"; "download_dir"; "headless"; "include_sets"; "exclude_sets";
   "card_selection_strategy"; "set_selection_strategy"; "no_match_selection";
   "render_delay"; "white_border"; "pt_bold"; "pt_shadow"; "pt_font_size";
   "pt_kerning"; "pt_up"; "title_font_size"; "title_shadow"; "title_kerning";
   "title_left"; "type_font_size"; "type_shadow"; "type_kerning"; "type_left";
   "flavor_font"; "rules_down"; "image_server"; "image_server_path"; "art_path";
   "autofit_art"; "upscale_art"; "ilaria_url"; "upscaler_model";
   "upscaler_factor"; "upload_path"; "upload_secret"; "overwrite";
   "overwrite_older_than"; "overwrite_newer_than"].

(** The keyword arguments of the [CardConjurerAutomator(...)] call in the
    selenium branch of [main]. *)
Definition main_selenium_init_kwargs : list string :=
  ["url"; "download_dir"; "headless"; "include_sets"; "exclude_sets";
   "spells_include_sets"; "spells_exclude_sets"; "basic_land_include_sets";
   "basic_land_exclude_sets"; "card_selection_strategy"; "set_selection_strategy";
   "no_match_selection"; "render_delay"; "white_border"; "pt_bold"; "pt_shadow";
   "pt_font_size"; "pt_kerning"; "pt_up"; "title_font_size"; "title_shadow";
   "title_kerning"; "title_left"; "title_up"; "type_font_size"; "type_shadow";
   "type_kerning"; "type_left"; "flavor_font"; "rules_down"; "rules_bounds_y";
   "rules_bounds_height"; "hide_reminder_text"; "image_server";
   "image_server_path"; "art_path"; "autofit_art"; "upscale_art"; "ilaria_url";
   "upscaler_model"; "upscaler_factor"; "upload_path"; "upload_secret";
   "scryfall_filter"; "save_cc_file"; "overwrite"; "overwrite_older_than";
   "overwrite_newer_than"; "debug"; "auto_fit_type"].

(** The parameters of [CardConjurerAutomator.set_frame]. *)
Definition set_frame_params : list string := ["frame_value"].

(** The selenium branch of [main] with the calls it ships:
    [CardConjurerAutomator(...)] with [main_selenium_init_kwargs] (its body,
    which starts the Chrome session and opens the renderer, is [init_body]),
    then [automator.set_frame(args.frame, wait=False)] (its body is
    [frame_body]), then the card loop of [main_selenium_call].  An
    exception from the setup reaches the outer handler: status 1. *)
Definition main_selenium_shipped (init_body frame_body : outcome)
    (process : string -> outcome) (cards : list string) : list string * nat :=
  match call_with_kwargs automator_init_params main_selenium_init_kwargs init_body with
  | Raised _ => ([], 1)
  | Returned =>
      match call_with_kwargs set_frame_params ["wait"] frame_body with
      | Raised _ => ([], 1)
      | Returned => main_selenium_call true process cards
      end
  end.

End Main.

(* ================================================================= *)
(** ** Python [str] methods on Latin-1 text

    The parsers below ([parse_card_file], [parse_set_list], the argument
    file reader, [generate_safe_filename], [parse_time_string]) are modelled
    on text whose code points are below 256, one [ascii] per code point.
    On that range [str.isspace] and regex [\s] are true for 9-13, 28-32,
    133 and 160, regex [\d] for 48-57, and [str.lower] maps 65-90, 192-214
    and 216-222 to the code point 32 higher. *)

Module PyText.

Definition truthy (s : string) : bool :=
  match s with EmptyString => false | _ => true end.

Definition isspace (c : ascii) : bool :=
  let n := nat_of_ascii c in
  ((9 <=? n)%nat && (n <=? 13)%nat) || ((28 <=? n)%nat && (n <=? 32)%nat)
  || Nat.eqb n 133 || Nat.eqb n 160.

Definition isdigit (c : ascii) : bool :=
  let n := nat_of_ascii c in (48 <=? n)%nat && (n <=? 57)%nat.

Definition isupper (c : ascii) : bool :=
  let n := nat_of_ascii c in
  ((65 <=? n)%nat && (n <=? 90)%nat) || ((192 <=? n)%nat && (n <=? 214)%nat)
  || ((216 <=? n)%nat && (n <=? 222)%nat).

Definition lower_char (c : ascii) : ascii :=
  if isupper c then ascii_of_nat (nat_of_ascii c + 32) else c.

(** [str.lower()]. *)
Fixpoint lower (s : string) : string :=
  match s with
  | EmptyString => EmptyString
  | String c r => String (lower_char c) (lower r)
  end.

Fixpoint lstrip_by (p : ascii -> bool) (s : string) : string :=
  match s with
  | EmptyString => EmptyString
  | String c r => if p c then lstrip_by p r else s
  end.

Fixpoint rstrip_by (p : ascii -> bool) (s : string) : string :=
  match s with
  | EmptyString => EmptyString
  | String c r =>
      let r' := rstrip_by p r in
      if negb (truthy r') && p c then EmptyString else String c r'
  end.

(** [s.strip(chars)] where [p] recognises the stripped characters. *)
Definition strip_by (p : ascii -> bool) (s : string) : string :=
  rstrip_by p (lstrip_by p s).

(** [str.strip()]. *)
Definition strip (s : string) : string := strip_by isspace s.

(** [str.split(sep)] for a one-character separator. *)
Fixpoint split (sep : ascii) (s : string) : list string :=
  match s with
  | EmptyString => [EmptyString]
  | String c r =>
      let rest := split sep r in
      if Ascii.eqb c sep then EmptyString :: rest
      else match rest with
           | h :: t => String c h :: t
           | [] => [String c EmptyString]
           end
  end.

(** [s.split(sep, 1)[0]]: the text before the first [sep]. *)
Fixpoint before (sep : ascii) (s : string) : string :=
  match s with
  | EmptyString => EmptyString
  | String c r => if Ascii.eqb c sep then EmptyString else String c (before sep r)
  end.

(** [sep in s]. *)
Fixpoint contains (sep : ascii) (s : string) : bool :=
  match s with
  | EmptyString => false
  | String c r => Ascii.eqb c sep || contains sep r
  end.

(** [s.replace(c, '')]. *)
Fixpoint remove (c : ascii) (s : string) : string :=
  match s with
  | EmptyString => EmptyString
  | String d r => if Ascii.eqb d c then remove c r else String d (remove c r)
  end.

(** [s.startswith(c)] for one character. *)
Definition starts_with_char (c : ascii) (s : string) : bool :=
  match s with String d _ => Ascii.eqb d c | EmptyString => false end.

(** A leading run of regex [\d]: the digits and the rest. *)
Fixpoint take_digits (s : string) : string * string :=
  match s with
  | String c r =>
      if isdigit c then let (d, rest) := take_digits r in (String c d, rest)
      else (EmptyString, s)
  | EmptyString => (EmptyString, EmptyString)
  end.

(** [int(d)] for a string of ASCII digits. *)
Fixpoint int_of_digits_acc (s : string) (acc : Z) : Z :=
  match s with
  | EmptyString => acc
  | String c r => int_of_digits_acc r (10 * acc + (Z.of_nat (nat_of_ascii c) - 48))
  end.

Definition int_of_digits (s : string) : Z := int_of_digits_acc s 0.

(** Every character of [s] satisfies [p]. *)
Fixpoint all_chars (p : ascii -> bool) (s : string) : bool :=
  match s with
  | EmptyString => true
  | String c r => p c && all_chars p r
  end.

(** [sep.join(l)] for a one-character separator. *)
Fixpoint join (sep : ascii) (l : list string) : string :=
  match l with
  | [] => EmptyString
  | [x] => x
  | x :: rest => x ++ String sep (join sep rest)
  end.

Fixpoint mem (x : string) (l : list string) : bool :=
  match l with
  | [] => false
  | y :: r => String.eqb x y || mem x r
  end.

(** [set.add(x)] on a set kept as a list without duplicates. *)
Definition set_add (x : string) (l : list string) : list string :=
  if mem x l then l else app l [x].

(** [set.update(xs)]. *)
Definition set_update (l xs : list string) : list string :=
  fold_left (fun acc x => set_add x acc) xs l.

End PyText.

(* ================================================================= *)
(** ** [generate_safe_filename] ([automator_utils.py]) and
    [CardConjurerAutomator._generate_safe_filename] ([automator.py]) *)

Module SafeName.
Import PyText.

(** [unicodedata.normalize('NFKD', ch).encode('ascii', 'ignore').decode('ascii')]
    for one code point below 256: NFKD works code point by code point, and
    the combining marks it adds are not ASCII, so they are dropped. *)
Definition nfkd_ascii_char (c : ascii) : string :=
  let n := nat_of_ascii c in
  if (n <? 128)%nat then String c EmptyString
  else if Nat.eqb n 160 || Nat.eqb n 168 || Nat.eqb n 175 || Nat.eqb n 180
          || Nat.eqb n 184 then " "
  else if Nat.eqb n 170 || ((224 <=? n)%nat && (n <=? 229)%nat) then "a"
  else if Nat.eqb n 178 then "2"
  else if Nat.eqb n 179 then "3"
  else if Nat.eqb n 185 then "1"
  else if Nat.eqb n 186 || ((242 <=? n)%nat && (n <=? 246)%nat) then "o"
  else if Nat.eqb n 188 then "14"
  else if Nat.eqb n 189 then "12"
  else if Nat.eqb n 190 then "34"
  else if (192 <=? n)%nat && (n <=? 197)%nat then "A"
  else if Nat.eqb n 199 then "C"
  else if (200 <=? n)%nat && (n <=? 203)%nat then "E"
  else if (204 <=? n)%nat && (n <=? 207)%nat then "I"
  else if Nat.eqb n 209 then "N"
  else if (210 <=? n)%nat && (n <=? 214)%nat then "O"
  else if (217 <=? n)%nat && (n <=? 220)%nat then "U"
  else if Nat.eqb n 221 then "Y"
  else if Nat.eqb n 231 then "c"
  else if (232 <=? n)%nat && (n <=? 235)%nat then "e"
  else if (236 <=? n)%nat && (n <=? 239)%nat then "i"
  else if Nat.eqb n 241 then "n"
  else if (249 <=? n)%nat && (n <=? 252)%nat then "u"
  else if Nat.eqb n 253 || Nat.eqb n 255 then "y"
  else EmptyString.

Fixpoint nfkd_ascii (s : string) : string :=
  match s with
  | EmptyString => EmptyString
  | String c r => nfkd_ascii_char c ++ nfkd_ascii r
  end.

(** The regex class of the first substitution: [\s] and the characters
    / : < > double quote, backslash, | ? * and &. *)
Definition is_sep (c : ascii) : bool :=
  isspace c || Ascii.eqb c "/" || Ascii.eqb c ":" || Ascii.eqb c "<"
  || Ascii.eqb c ">" || Ascii.eqb c "034" || Ascii.eqb c "\"
  || Ascii.eqb c "|" || Ascii.eqb c "?" || Ascii.eqb c "*" || Ascii.eqb c "&".

Definition is_dash (c : ascii) : bool := Ascii.eqb c "-".

(** [re.sub(r'[...]+', '-', s)] for a class [p]: every maximal run of
    characters of the class becomes one ['-']; [in_run] says whether the
    previous character was in the class. *)
Fixpoint sub_runs (p : ascii -> bool) (in_run : bool) (s : string) : string :=
  match s with
  | EmptyString => EmptyString
  | String c r =>
      if p c then (if in_run then sub_runs p true r else String "-" (sub_runs p true r))
      else String c (sub_runs p false r)
  end.

Definition generate_safe_filename (value : string) : string :=
  let value := remove "'" value in
  let value := remove "," value in
  let value := nfkd_ascii value in
  let value := sub_runs is_sep false value in
  let value := sub_runs is_dash false value in
  let value := strip_by is_dash value in
  lower value.

(** Predicates on the result of [generate_safe_filename] (not code of the module). *)
Definition starts_p (p : ascii -> bool) (s : string) : bool :=
  match s with String c _ => p c | EmptyString => false end.

Fixpoint ends_p (p : ascii -> bool) (s : string) : bool :=
  match s with
  | EmptyString => false
  | String c EmptyString => p c
  | String _ r => ends_p p r
  end.

(** No two consecutive ['-']. *)
Fixpoint no_double_dash (s : string) : bool :=
  match s with
  | String c ((String d _) as t) => negb (is_dash c && is_dash d) && no_double_dash t
  | _ => true
  end.

(** The characters [generate_safe_filename] can return: ASCII, no quote
    or comma, nothing of the separator class, no upper case letter. *)
Definition safe_char (c : ascii) : bool :=
  (nat_of_ascii c <? 128)%nat && negb (Ascii.eqb c "'") && negb (Ascii.eqb c ",")
  && negb (is_sep c) && negb (isupper c).

Definition folded_char (c : ascii) : bool :=
  (nat_of_ascii c <? 128)%nat && negb (Ascii.eqb c "'") && negb (Ascii.eqb c ",").

End SafeName.

(* ================================================================= *)
(** ** [parse_set_list] ([automator_utils.py]) *)

Module SetList.
Import PyText.

(** An element of a list, tuple or set argument: a string, or anything
    else (skipped). *)
Inductive set_item := ItemStr (s : string) | ItemOther.

(** The argument: [None], a string, a list, tuple or set, or any other
    object, with its truth value. *)
Inductive sets_arg :=
| SetsNone
| SetsStr (s : string)
| SetsSeq (items : list set_item)
| SetsOther (is_truthy : bool).

(** [not sets_arg]. *)
Definition sets_falsy (a : sets_arg) : bool :=
  match a with
  | SetsNone => true
  | SetsStr s => negb (truthy s)
  | SetsSeq items => match items with [] => true | _ => false end
  | SetsOther b => negb b
  end.

(** [(s.strip().lower() for s in item.split(',') if s.strip())]. *)
Definition pieces (item : string) : list string :=
  map (fun s => lower (strip s)) (filter (fun s => truthy (strip s)) (split "," item)).

Definition parse_set_list (a : sets_arg) : list string :=
  if sets_falsy a then []
  else
    let result := [] in
    match a with
    | SetsStr s => set_update result (pieces s)
    | SetsSeq items =>
        fold_left (fun result item =>
                     match item with
                     | ItemStr s => set_update result (pieces s)
                     | ItemOther => result
                     end) items result
    | _ => result
    end.

(** Predicates on the result of [parse_set_list] (not code of the module). *)
Definition no_comma (c : ascii) : bool := negb (Ascii.eqb c ",").

(** The normal form of a set code: non-empty, no comma, and unchanged by
    [strip()] and [lower()]. *)
Definition set_code_normal (x : string) : bool :=
  truthy x && all_chars no_comma x && String.eqb (strip x) x && String.eqb (lower x) x.

End SetList.

(* ================================================================= *)
(** ** [parse_card_file] ([ccAutomator.py]) *)

Module CardFile.
Import PyText.

Record card := mkCard { name : string; category : string }.

(** [re.match(r'^\d+\s+( .* )', line)] (spaces added) and its [group(1)],
    on a line without a newline: [\d+] and [\s+] are greedy, and
    backtracking cannot help since a digit is not whitespace; the group
    takes the rest. *)
Definition match_numbered (line : string) : option string :=
  let (digits, rest) := take_digits line in
  if truthy digits then
    match rest with
    | String c _ => if isspace c then Some (lstrip_by isspace rest) else None
    | EmptyString => None
    end
  else None.

(** The loop of [parse_card_file] over the lines of the file (each without
    its line terminator, which [line.strip()] removes anyway). *)
Fixpoint parse_lines (current_category : string) (lines : list string) : list card :=
  match lines with
  | [] => []
  | line :: rest =>
      let line := strip line in
      if negb (truthy line) then parse_lines current_category rest
      else if starts_with_char "#" line then
        let current_category := lower (strip (lstrip_by (fun c => Ascii.eqb c "#") line)) in
        parse_lines current_category rest
      else
        match match_numbered line with
        | Some g => mkCard (strip g) current_category :: parse_lines current_category rest
        | None => mkCard line current_category :: parse_lines current_category rest
        end
  end.

Definition parse_card_file (lines : list string) : list card := parse_lines "deck" lines.

End CardFile.

(* ================================================================= *)
(** ** [CustomArgumentParser.convert_arg_line_to_args] ([ccAutomator.py]) *)

Module ArgFile.
Import PyText.

Definition convert_arg_line_to_args (arg_line : string) : list string :=
  let arg_line := strip arg_line in
  if negb (truthy arg_line) then []
  else if starts_with_char "#" arg_line then []
  else
    let arg_line := if contains "#" arg_line then strip (before "#" arg_line) else arg_line in
    if negb (truthy arg_line) then [] else [arg_line].

End ArgFile.

(* ================================================================= *)
(** ** [split_basic_lands] ([ccAutomator.py]) *)

Module BasicLands.
Import PyText.

Definition BASIC_LANDS : list string :=
  ["Plains"; "Island"; "Swamp"; "Mountain"; "Forest"; "Wastes"].

(** A card: a dictionary with a ['name'], or a plain string. *)
Inductive card_entry := CardDict (name category : string) | CardStr (s : string).

Definition card_name_of (card : card_entry) : string :=
  match card with CardDict n _ => n | CardStr s => s end.

Definition split_basic_lands (cards : list card_entry) : list card_entry * list string :=
  fold_left (fun '(non_basic, basic_lands) card =>
               let card_name := card_name_of card in
               if mem card_name BASIC_LANDS then (non_basic, set_add card_name basic_lands)
               else (app non_basic [card], basic_lands))
            cards ([], []).

End BasicLands.

(* ================================================================= *)
(** ** [parse_time_string] ([automator_utils.py]; the same code is
    [CardConjurerAutomator._parse_time_string] in [automator.py]) *)

Module TimeParse.
Import PyText.

(** A [datetime] in UTC as microseconds since the Unix epoch. *)
Definition datetime_min : Z := -62135596800 * 1000000.
Definition datetime_max : Z := 253402300800 * 1000000 - 1.
Definition timedelta_max_days : Z := 999999999.

(** What a call gives: [None], a [datetime], or the [OverflowError] that
    [timedelta(...)] or the subtraction raises out of range. *)
Inductive time_result := TimeNone | TimeAt (t : Z) | TimeOverflow.

(** [re.match(r'(\d+)([mh])$', s)]: the digits and the unit; [$] also
    matches before a newline that ends the string. *)
Definition match_relative (s : string) : option (Z * ascii) :=
  let (digits, rest) := take_digits s in
  if truthy digits then
    match rest with
    | String u tail =>
        if (Ascii.eqb u "m" || Ascii.eqb u "h")
           && (String.eqb tail EmptyString || String.eqb tail (String "010" EmptyString))
        then Some (int_of_digits digits, u)
        else None
    | EmptyString => None
    end
  else None.

(** [now - timedelta(...)] with the range checks of [timedelta] and
    [datetime]. *)
Definition minus_delta (now delta_us : Z) : time_result :=
  if (delta_us / (86400 * 1000000) >? timedelta_max_days)%Z then TimeOverflow
  else
    let result_dt := (now - delta_us)%Z in
    if (result_dt <? datetime_min)%Z then TimeOverflow else TimeAt result_dt.

Section ParseTime.

(** [datetime.strptime(time_str, '%Y-%m-%d-%H-%M-%S')] followed by the
    conversion to UTC; [None] for its [ValueError]. *)
Variable strptime : string -> option Z.
(** [datetime.now(timezone.utc)]. *)
Variable now : Z.

Definition parse_time_string (time_str : string) : time_result :=
  if negb (truthy time_str) then TimeNone
  else
    match strptime time_str with
    | Some utc_dt => TimeAt utc_dt
    | None =>
        match match_relative (lower time_str) with
        | Some (value, unit) =>
            if Ascii.eqb unit "m" then minus_delta now (value * 60 * 1000000)
            else if Ascii.eqb unit "h" then minus_delta now (value * 3600 * 1000000)
            else TimeNone
        | None => TimeNone
        end
    end.

End ParseTime.

End TimeParse.

(* ================================================================= *)
(** ** [_get_scryfall_art_crop_url] ([automator.py] and
    [mixins/image_mixin.py], the same code) *)

Module ScryfallJson.
Import PyText.

(** A value of [response.json()]: a dict is an association list in
    insertion order (numbers are kept as integers: only their truth value
    matters here). *)
#[warnings="-register-all"]
Inductive json :=
| JNull
| JBool (b : bool)
| JNum (n : Z)
| JStr (s : string)
| JArr (l : list json)
| JObj (kv : list (string * json)).

Definition json_truthy (v : json) : bool :=
  match v with
  | JNull => false
  | JBool b => b
  | JNum n => negb (Z.eqb n 0)
  | JStr s => truthy s
  | JArr l => match l with [] => false | _ => true end
  | JObj kv => match kv with [] => false | _ => true end
  end.

Fixpoint lookup (k : string) (kv : list (string * json)) : option json :=
  match kv with
  | [] => None
  | (k', v) :: r => if String.eqb k k' then Some v else lookup k r
  end.

(** [k in s] for strings: [k] is a substring of [s]. *)
Fixpoint is_substring (k s : string) : bool :=
  prefix k s || match s with EmptyString => false | String _ r => is_substring k r end.

(** [k in v] for a string [k]; [None] is the [TypeError] of a container
    test on a number, a bool or [None]. *)
Definition py_in (k : string) (v : json) : option bool :=
  match v with
  | JObj kv => Some (match lookup k kv with Some _ => true | None => false end)
  | JArr l => Some (existsb (fun e => match e with JStr s => String.eqb s k | _ => false end) l)
  | JStr s => Some (is_substring k s)
  | _ => None
  end.

(** [v[k]] after [k in v] held: only a dict can be indexed by a string. *)
Definition py_getitem (v : json) (k : string) : option json :=
  match v with JObj kv => lookup k kv | _ => None end.

(** [for x in v]: a list gives its items, a dict its keys, a string its
    characters; anything else raises [TypeError]. *)
Definition py_iter (v : json) : option (list json) :=
  match v with
  | JArr l => Some l
  | JObj kv => Some (map (fun p => JStr (fst p)) kv)
  | JStr s => Some (map (fun c => JStr (String c EmptyString)) (list_ascii_of_string s))
  | _ => None
  end.

(** [x in v and k in v[x]], evaluated left to right. *)
Definition has_art_crop (v : json) : option bool :=
  match py_in "image_uris" v with
  | None => None
  | Some false => Some false
  | Some true =>
      match py_getitem v "image_uris" with
      | None => None
      | Some iu => py_in "art_crop" iu
      end
  end.

(** The [for face in ...] loop with its [break]. *)
Fixpoint scan_faces (faces : list json) (art_crop_url : json) : option json :=
  match faces with
  | [] => Some art_crop_url
  | face :: rest =>
      match has_art_crop face with
      | None => None
      | Some true =>
          match py_getitem face "image_uris" with
          | Some iu => py_getitem iu "art_crop"
          | None => None
          end
      | Some false => scan_faces rest art_crop_url
      end
  end.

(** What the method gives: the pair it returns, or the [TypeError] that
    escapes it (only [RequestException] is caught). *)
Inductive art_result := ArtFound (url type_line : json) | ArtNone | ArtTypeError.

(** [response]: the decoded dict, or [None] for the [RequestException] of
    [requests.get], [raise_for_status] or [response.json()]. *)
Definition get_scryfall_art_crop_url (response : option (list (string * json))) : art_result :=
  match response with
  | None => ArtNone
  | Some card_kv =>
      let card_data := JObj card_kv in
      let art_crop_url := JStr EmptyString in
      let art_crop_url :=
        match has_art_crop card_data with
        | None => None
        | Some true =>
            match py_getitem card_data "image_uris" with
            | Some iu => py_getitem iu "art_crop"
            | None => None
            end
        | Some false =>
            match lookup "card_faces" card_kv with
            | Some faces =>
                if json_truthy faces then
                  match py_iter faces with
                  | Some l => scan_faces l art_crop_url
                  | None => None
                  end
                else Some art_crop_url
            | None => Some art_crop_url
            end
        end in
      match art_crop_url with
      | None => ArtTypeError
      | Some art_crop_url =>
          let type_line := match lookup "type_line" card_kv with
                           | Some t => t | None => JStr EmptyString end in
          if json_truthy art_crop_url then ArtFound art_crop_url type_line else ArtNone
      end
  end.

End ScryfallJson.

(* ================================================================= *)
(** ** Scryfall mode of [process_and_capture_card] ([automator.py]) *)

Module ScryfallMode.
Import PyText.
Import Prints.

(** One result of [scryfall_api.search_cards]: its ['set'] and
    ['collector_number'] ([None] when absent). *)
Record sresult := mkResult { sr_set : option string; sr_cn : option string }.

Definition opt_truthy (o : option string) : bool :=
  match o with Some s => truthy s | None => false end.

(** [sep.join(l)]. *)
Fixpoint join_with (sep : string) (l : list string) : string :=
  match l with
  | [] => EmptyString
  | [x] => x
  | x :: rest => x ++ sep ++ join_with sep rest
  end.

Definition base_query_parts (card_name : string) : list string :=
  [String "!" (String "034" (card_name ++ String "034" EmptyString));
   "unique:art"; "game:paper"; "not:covered"].

Definition full_query (card_name : string) (include_sets exclude_sets : list string) : string :=
  let query_parts := base_query_parts card_name in
  let query_parts :=
    if nonempty include_sets then
      let include_query := join_with " OR " (map (fun s => "set:" ++ s) include_sets) in
      app query_parts ["(" ++ include_query ++ ")"]
    else query_parts in
  let query_parts :=
    if nonempty exclude_sets then
      let exclude_query := join_with " " (map (fun s => "-set:" ++ s) exclude_sets) in
      app query_parts [" " ++ exclude_query]
    else query_parts in
  join_with " " query_parts.

Definition fallback_query (card_name no_match_selection : string) : string :=
  let fallback_query_parts := base_query_parts card_name in
  let fallback_query_parts :=
    if String.eqb no_match_selection "latest" then app fallback_query_parts ["prefer:newest"]
    else if String.eqb no_match_selection "earliest" then app fallback_query_parts ["prefer:oldest"]
    else fallback_query_parts in
  join_with " " fallback_query_parts.

(** The inner loop over [all_cc_prints] with its [break]:
    [Some (Some p)] for the first print that matches, [Some None] for none,
    and [None] for the [AttributeError] of [None.lower()] on a print whose
    [set_name] or [collector_number] is [None]. *)
Fixpoint find_cc_print (scryfall_set scryfall_cn : string) (all_cc_prints : list print)
  : option (option print) :=
  match all_cc_prints with
  | [] => Some None
  | cc_print :: rest =>
      match set_name cc_print with
      | None => None
      | Some s =>
          if String.eqb (lower s) (lower scryfall_set) then
            match collector_number cc_print with
            | None => None
            | Some cn =>
                if String.eqb (lower cn) (lower scryfall_cn) then Some (Some cc_print)
                else find_cc_print scryfall_set scryfall_cn rest
            end
          else find_cc_print scryfall_set scryfall_cn rest
      end
  end.

(** The outer loop building [matched_prints]; [None] is the
    [AttributeError]. *)
Fixpoint match_results (scryfall_results : list sresult) (all_cc_prints : list print)
  : option (list print) :=
  match scryfall_results with
  | [] => Some []
  | sr :: rest =>
      let here :=
        match sr_set sr, sr_cn sr with
        | Some scryfall_set, Some scryfall_cn =>
            if truthy scryfall_set && truthy scryfall_cn
            then find_cc_print scryfall_set scryfall_cn all_cc_prints
            else Some None
        | _, _ => Some None
        end in
      match here with
      | None => None
      | Some found =>
          match match_results rest all_cc_prints with
          | None => None
          | Some matched =>
              Some (match found with Some p => p :: matched | None => matched end)
          end
      end
  end.

(** How Scryfall mode ends: the prints to capture, an early [return], or
    the [AttributeError]. *)
Inductive scry_outcome := ScryPrints (l : list print) | ScrySkip | ScryAttributeError.

(** Scryfall mode, with the queries it sends in order; [rnd] is the index
    drawn by [random.choice]. *)
Definition scryfall_mode (search_cards : string -> list sresult) (rnd : nat)
    (card_name : string) (all_cc_prints : list print)
    (include_sets exclude_sets : list string)
    (set_selection_strategy no_match_selection : string) : list string * scry_outcome :=
  let q1 := full_query card_name include_sets exclude_sets in
  let first := search_cards q1 in
  let next :=
    match first with
    | [] =>
        if String.eqb no_match_selection "skip" then ([q1], None)
        else
          let q2 := fallback_query card_name no_match_selection in
          match search_cards q2 with
          | [] => ([q1; q2], None)
          | results => ([q1; q2], Some (results, no_match_selection))
          end
    | results => ([q1], Some (results, set_selection_strategy))
    end in
  match next with
  | (queries, None) => (queries, ScrySkip)
  | (queries, Some (scryfall_results, selection_strategy)) =>
      match match_results scryfall_results all_cc_prints with
      | None => (queries, ScryAttributeError)
      | Some [] =>
          if String.eqb no_match_selection "skip" then (queries, ScrySkip)
          else (queries, ScryPrints (select_prints_from_candidate rnd all_cc_prints no_match_selection))
      | Some ((m0 :: _) as matched_prints) =>
          (queries, ScryPrints
             (if String.eqb selection_strategy "latest" then [last matched_prints m0]
              else if String.eqb selection_strategy "earliest" then [m0]
              else if String.eqb selection_strategy "random"
              then [nth (Nat.modulo rnd (length matched_prints)) matched_prints m0]
              else matched_prints))
      end
  end.

End ScryfallMode.

(* ================================================================= *)
(** ** POSIX [pathlib] joins and the upscaler's local read
    ([_prepare_art_asset] and [_upscale_image_with_ilaria], [automator.py]) *)

Module Paths.
Import PyText.

(** A [PurePosixPath]: its root ([''], ['/'] or ['//']) and its parts. *)
Record ppath := mkPath { root : string; parts : list string }.

Definition is_slash (c : ascii) : bool := Ascii.eqb c "/".

(** [Path(s)]: exactly two leading slashes are kept as the root ['//'],
    one or more than two give ['/']; empty and ['.'] parts are dropped. *)
Definition path_of (s : string) : ppath :=
  let root :=
    match s with
    | String "/" (String "/" (String "/" _)) => "/"
    | String "/" (String "/" _) => "//"
    | String "/" _ => "/"
    | _ => EmptyString
    end in
  mkPath root (filter (fun part => truthy part && negb (String.eqb part ".")) (split "/" s)).

(** [p / s]: an absolute [s] replaces [p]. *)
Definition path_div (p : ppath) (s : string) : ppath :=
  let q := path_of s in
  if truthy (root q) then q else mkPath (root p) (app (parts p) (parts q)).

(** [str(p)]. *)
Definition path_str (p : ppath) : string :=
  match root p, parts p with
  | EmptyString, [] => "."
  | r, ps => r ++ join "/" ps
  end.

(** [str(Path(download_dir) / art_path.strip('/') / sub_dir / filename)]:
    the local path of a saved asset, which [_prepare_art_asset] keeps as
    [hosted_original_art_url] and passes to the upscaler. *)
Definition local_asset_path (download_dir art_path sub_dir filename : string) : string :=
  path_str (path_div (path_div (path_div (path_of download_dir) (strip_by is_slash art_path))
                               sub_dir) filename).

(** The local branch of [_upscale_image_with_ilaria]: the path it opens,
    or [None] when it fetches [original_art_path_for_upscaler] as a URL. *)
Definition upscaler_local_path (download_dir image_server_path original_art_path_for_upscaler : string)
  : option string :=
  if truthy download_dir
     && prefix (strip_by is_slash image_server_path) original_art_path_for_upscaler
  then Some (path_str (path_div (path_of download_dir) original_art_path_for_upscaler))
  else None.

(** A path component as [pathlib] keeps it. *)
Definition good_part (x : string) : bool :=
  truthy x && negb (String.eqb x ".") && all_chars (fun c => negb (is_slash c)) x.

End Paths.


(* ================================================================= *)
(** ** Concrete inputs used by the examples below *)

Module Fixtures.
Import Prints.

Definition island_options : list (string * string) :=
  [("0", "Island (LEA #1)"); ("1", "Island (4ED #2)")].

Definition island_4ed : print := mkPrint "1" "Island (4ED #2)" (Some "4ED") (Some "2").

Definition island_lea_options : list (string * string) :=
  [("0", "Island (LEA #1)"); ("1", "Island (LEA #2)")].

Definition sol_ring_options : list (string * string) :=
  [("0", "Sol Ring (LEA #1)"); ("1", "Sol Ring Fragment (ABC #2)")].

(** A file timestamp [T] used in the overwrite matrix. *)
Definition matrix_T : Z := 1700000000.

(** A JPEG and a PNG payload (magic bytes only). *)
Definition jpeg_bytes : Art.bytes := Art.bytes_of [255; 216; 255; 224].
Definition png_bytes : Art.bytes := Art.bytes_of [137; 80; 78; 71; 13; 10; 26; 10; 0].

Definition island_art_crop : string :=
  "https://cards.scryfall.io/art_crop/front/island.jpg?1".

(** Collaborators answering as on a good network: Scryfall knows the print,
    the art GET returns a JPEG, PIL is unavailable, the upscaler returns a
    PNG when given the art crop URL (and fails on any other source), writes
    and uploads succeed and the image server answers 200. *)
Definition demo_env : Art.env := Art.mkEnv
  (fun _ _ _ => Some (island_art_crop, "Basic Land - Island"))
  (fun _ => Some jpeg_bytes)
  (fun _ => None)
  (fun src => match src with
              | Some u => if String.eqb u island_art_crop then Some png_bytes else None
              | None => None
              end)
  (fun _ => ".jpg")
  PyStr.lower
  (fun srv sub f => srv ++ "/art/" ++ sub ++ "/" ++ f)
  (fun d sub f => d ++ "/art/" ++ sub ++ "/" ++ f)
  (fun _ _ => true)
  (fun _ _ => Overwrite.HeadResponse 200 None).

(** The same, but the art GET fails. *)
Definition fetch_fails_env : Art.env := Art.mkEnv
  (Art.scryfall_art_crop demo_env) (fun _ => None) (Art.pil_format demo_env)
  (Art.upscale_with_ilaria demo_env) (Art.url_ext demo_env)
  (Art.safe_filename demo_env) (Art.server_art_url demo_env)
  (Art.local_art_path demo_env) (Art.write_ok demo_env) (Art.server_head demo_env).

(** Local output directory, upscaling off. *)
Definition local_config : Art.config :=
  Art.mkConfig None (Some "out") false None "RealESRGAN_x2plus" 4.
(** Upload mode: an image server and no output directory, upscaling on.
    The upscaler then reads the art crop URL. *)
Definition upload_upscale_config : Art.config :=
  Art.mkConfig (Some "http://img") None true (Some "http://ilaria:7860")
    "RealESRGAN_x2plus" 4.

Definition empty_store : Art.store := Art.mkStore [] [].

End Fixtures.

(* ================================================================= *)
(** * Properties *)

Import PyStr Prints Fixtures.

(** ** Print search and selection *)

Lemma filter_prints_incl : forall l inc exc p,
  In p (fst (filter_prints l inc exc)) -> In p l.
Proof.
  intros l inc exc p H. destruct l as [|q rest]; [exact H|].
  unfold filter_prints in H. cbv zeta in H.
  assert (Hpost : forall x, In x (if nonempty exc
                                  then filter (fun p => negb (set_in exc p)) (q :: rest)
                                  else q :: rest) -> In x (q :: rest)).
  { intros x Hx. destruct (nonempty exc); [|exact Hx].
    apply filter_In in Hx. apply Hx. }
  apply Hpost.
  destruct (nonempty inc && _); simpl in H; [exact H|].
  destruct (nonempty inc); [|exact H].
  apply filter_In in H. apply H.
Qed.

Lemma match_data_text : forall v t, text (match_data v t) = t.
Proof.
  intros v t. unfold match_data. destruct (set_info t) as [[s cn]|]; reflexivity.
Qed.

Lemma exact_matches_guard : forall card options p,
  In p (exact_matches card options) -> is_exact_match card (text p) = true.
Proof.
  intros card options p H. unfold exact_matches in H.
  apply in_map_iff in H. destruct H as [o [Ho Hin]]. subst p.
  apply filter_In in Hin. destruct Hin as [_ Hg].
  rewrite match_data_text. exact Hg.
Qed.

Lemma set_in_nil : forall p, set_in [] p = false.
Proof.
  intros p. unfold set_in. destruct (set_name p); [|reflexivity].
  simpl. apply andb_false_r.
Qed.

Lemma filter_all_false : forall (A : Type) (f : A -> bool) l,
  (forall x, In x l -> f x = false) -> filter f l = [].
Proof.
  intros A f l H. induction l as [|x r IH]; [reflexivity|].
  simpl. rewrite (H x (or_introl eq_refl)). apply IH.
  intros y Hy. apply H. right. exact Hy.
Qed.

Lemma filter_all_true : forall (A : Type) (f : A -> bool) l,
  (forall x, In x l -> f x = true) -> filter f l = l.
Proof.
  intros A f l H. induction l as [|x r IH]; [reflexivity|].
  simpl. rewrite (H x (or_introl eq_refl)). f_equal. apply IH.
  intros y Hy. apply H. right. exact Hy.
Qed.

Lemma same_set_refl : forall p, same_set p p = true.
Proof.
  intros p. unfold same_set. destruct (set_name p); [apply String.eqb_refl|reflexivity].
Qed.

(** Claim C1. In Card Conjurer (local) mode, for a non-empty candidate list,
    'latest' returns just the first print, 'earliest' just the last, and
    'random' one print drawn from the list: the pick is not expanded to the
    other prints of its set, as the help text of [--set-selection] and the
    specification require.  When another candidate shares the first print's
    set, the described result for 'latest' differs from the code's.  For
    'Island' with newest-first prints [LEA #1; LEA #2] and 'latest' the
    code captures [LEA #1] alone; with [LEA #1; 4ED #2] and 'earliest' it
    captures [4ED #2]. *)
Theorem C1_single_representative : forall rnd p rest q,
  In q rest -> same_set p q = true ->
  select_prints_from_candidate rnd (p :: rest) "latest" = [p] /\
  select_prints_from_candidate rnd (p :: rest) "earliest" = [last (p :: rest) p] /\
  (exists r, In r (p :: rest) /\
             select_prints_from_candidate rnd (p :: rest) "random" = [r]) /\
  spec_select_prints_from_candidate rnd (p :: rest) "latest"
    <> select_prints_from_candidate rnd (p :: rest) "latest" /\
  cardconjurer_prints 0 "Island" island_lea_options [] [] "latest" "latest"
    = Some [mkPrint "0" "Island (LEA #1)" (Some "LEA") (Some "1")] /\
  spec_select_prints_from_candidate 0 (exact_matches "Island" island_lea_options) "latest"
    = exact_matches "Island" island_lea_options /\
  cardconjurer_prints 0 "Island" island_options [] [] "earliest" "earliest"
    = Some [island_4ed].
Proof.
  intros rnd p rest q Hq Hpq. split; [reflexivity|]. split; [reflexivity|]. split.
  { eexists. split; [|reflexivity]. apply nth_In.
    apply Nat.mod_upper_bound. simpl. discriminate. }
  split.
  { change (filter (same_set p) (p :: rest) <> [p]).
    cbn [filter]. rewrite same_set_refl. intros H. injection H as H.
    assert (Hin : In q (filter (same_set p) rest)) by (apply filter_In; auto).
    rewrite H in Hin. exact Hin. }
  split; [vm_compute; reflexivity|]. split; vm_compute; reflexivity.
Qed.

Lemma C1_witness :
  In (mkPrint "1" "Island (LEA #2)" (Some "LEA") (Some "2"))
     [mkPrint "1" "Island (LEA #2)" (Some "LEA") (Some "2")] /\
  same_set (mkPrint "0" "Island (LEA #1)" (Some "LEA") (Some "1"))
           (mkPrint "1" "Island (LEA #2)" (Some "LEA") (Some "2")) = true /\
  spec_select_prints_from_candidate 0
    [mkPrint "0" "Island (LEA #1)" (Some "LEA") (Some "1");
     mkPrint "1" "Island (LEA #2)" (Some "LEA") (Some "2")] "latest"
  <> select_prints_from_candidate 0
    [mkPrint "0" "Island (LEA #1)" (Some "LEA") (Some "1");
     mkPrint "1" "Island (LEA #2)" (Some "LEA") (Some "2")] "latest".
Proof.
  assert (Hq : In (mkPrint "1" "Island (LEA #2)" (Some "LEA") (Some "2"))
                  [mkPrint "1" "Island (LEA #2)" (Some "LEA") (Some "2")])
    by (left; reflexivity).
  assert (Hs : same_set (mkPrint "0" "Island (LEA #1)" (Some "LEA") (Some "1"))
                 (mkPrint "1" "Island (LEA #2)" (Some "LEA") (Some "2")) = true)
    by reflexivity.
  split; [exact Hq|]. split; [exact Hs|].
  exact (proj1 (proj2 (proj2 (proj2
    (C1_single_representative 0 (mkPrint "0" "Island (LEA #1)" (Some "LEA") (Some "1"))
       [mkPrint "1" "Island (LEA #2)" (Some "LEA") (Some "2")]
       (mkPrint "1" "Island (LEA #2)" (Some "LEA") (Some "2")) Hq Hs))))).
Defined.

(** Claim C6 (as amended): every print returned by the search has a
    display text that starts with the card name up to letter case, followed
    by the end of the text or " ("; of "Sol Ring (LEA #1)" and
    "Sol Ring Fragment (ABC #2)" the query "Sol Ring" keeps only the first. *)
Theorem C6_exact_match_guard : forall card options include_sets exclude_sets p,
  In p (fst (get_and_filter_prints card options include_sets exclude_sets)) ->
  startswith (lower (text p)) (lower card) = true /\
  (Nat.eqb (String.length (text p)) (String.length card)
   || String.eqb (substring (String.length card) 2 (text p)) " (") = true /\
  map text (fst (get_and_filter_prints "Sol Ring" sol_ring_options [] []))
    = ["Sol Ring (LEA #1)"].
Proof.
  intros card options inc exc p H.
  apply filter_prints_incl in H. apply exact_matches_guard in H.
  unfold is_exact_match in H. apply andb_prop in H. destruct H as [H1 H2].
  split; [exact H1|]. split; [exact H2|]. vm_compute. reflexivity.
Qed.

Lemma C6_witness :
  In (mkPrint "0" "Sol Ring (LEA #1)" (Some "LEA") (Some "1"))
     (fst (get_and_filter_prints "Sol Ring" sol_ring_options [] [])) /\
  startswith (lower "Sol Ring (LEA #1)") (lower "Sol Ring") = true /\
  (Nat.eqb (String.length "Sol Ring (LEA #1)") (String.length "Sol Ring")
   || String.eqb (substring (String.length "Sol Ring") 2 "Sol Ring (LEA #1)") " (") = true /\
  map text (fst (get_and_filter_prints "Sol Ring" sol_ring_options [] []))
    = ["Sol Ring (LEA #1)"].
Proof.
  assert (Hin : In (mkPrint "0" "Sol Ring (LEA #1)" (Some "LEA") (Some "1"))
     (fst (get_and_filter_prints "Sol Ring" sol_ring_options [] [])))
    by (vm_compute; left; reflexivity).
  split; [exact Hin|].
  exact (C6_exact_match_guard "Sol Ring" sol_ring_options [] [] _ Hin).
Defined.

(** The guard lower-cases both sides as Python does on Latin-1 text: the
    query "\230ther vial" (ae ligature, code point 230) returns the option
    "\198ther Vial (DST #91)" (capital ligature, 198). *)
Lemma exact_match_latin1 :
  map text (fst (get_and_filter_prints (String (ascii_of_nat 230) "ther vial")
                   [("0", String (ascii_of_nat 198) "ther Vial (DST #91)")] [] []))
    = [String (ascii_of_nat 198) "ther Vial (DST #91)"].
Proof.
  vm_compute. reflexivity.
Qed.

(** Claim C6, counterexample: the guard compares lower-cased text, so the
    query "sol ring" returns "Sol Ring (LEA #1)", which does not begin with
    "sol ring". *)
Lemma C6_counterexample :
  exists p, In p (fst (get_and_filter_prints "sol ring" [("0", "Sol Ring (LEA #1)")] [] []))
            /\ startswith (text p) "sol ring" = false.
Proof.
  eexists. split.
  - vm_compute. left. reflexivity.
  - vm_compute. reflexivity.
Qed.

(** Claim C7 (as amended): when at least one exact match was found and
    include_sets is non-empty, if no print left after the exclude filter has
    its set in include_sets, the search returns exactly the post-exclusion
    list with fallback = true (include_sets = {xyz} on the Island prints
    gives both prints and true); and for every card, dropdown and filter
    pair, when there is no exact match at all the search returns the empty
    list with fallback = false. *)
Theorem C7_include_fallback : forall p rest i irest exclude_sets,
  (forall q, In q (filter (fun q => negb (set_in exclude_sets q)) (p :: rest)) ->
             set_in (i :: irest) q = false) ->
  filter_prints (p :: rest) (i :: irest) exclude_sets
    = (filter (fun q => negb (set_in exclude_sets q)) (p :: rest), true) /\
  get_and_filter_prints "Island" island_options ["xyz"] []
    = (exact_matches "Island" island_options, true) /\
  (forall card options include_sets exclude_sets',
     exact_matches card options = [] ->
     get_and_filter_prints card options include_sets exclude_sets' = ([], false)).
Proof.
  intros p rest i irest exc H. split; [|split; [vm_compute; reflexivity|]].
  2:{ intros card options inc exc' Hnone. unfold get_and_filter_prints.
      rewrite Hnone. reflexivity. }
  unfold filter_prints.
  assert (Hpost : (if nonempty exc
                   then filter (fun q => negb (set_in exc q)) (p :: rest)
                   else p :: rest)
                  = filter (fun q => negb (set_in exc q)) (p :: rest)).
  { destruct exc as [|x xs]; [|reflexivity]. simpl nonempty. cbv iota.
    symmetry. apply filter_all_true. intros q _. rewrite set_in_nil. reflexivity. }
  rewrite Hpost. change (nonempty (i :: irest)) with true.
  rewrite (filter_all_false _ _ _ H). reflexivity.
Qed.

Lemma C7_witness :
  (forall q, In q (filter (fun q => negb (set_in [] q)) (exact_matches "Island" island_options)) ->
             set_in ["xyz"] q = false) /\
  filter_prints (exact_matches "Island" island_options) ["xyz"] []
    = (filter (fun q => negb (set_in [] q)) (exact_matches "Island" island_options), true) /\
  get_and_filter_prints "Island" island_options ["xyz"] []
    = (exact_matches "Island" island_options, true) /\
  (forall card options include_sets exclude_sets',
     exact_matches card options = [] ->
     get_and_filter_prints card options include_sets exclude_sets' = ([], false)).
Proof.
  assert (H : forall q, In q (filter (fun q => negb (set_in [] q))
                                     (exact_matches "Island" island_options)) ->
                        set_in ["xyz"] q = false).
  { intros q Hq. vm_compute in Hq.
    destruct Hq as [<-|[<-|[]]]; vm_compute; reflexivity. }
  split; [exact H|].
  exact (C7_include_fallback (mkPrint "0" "Island (LEA #1)" (Some "LEA") (Some "1"))
           [island_4ed] "xyz" [] [] H).
Defined.

(** Claim C7, counterexample: with no exact match at all the post-exclusion
    list is empty and the search returns fallback = false. *)
Lemma C7_counterexample :
  exact_matches "Island" [("0", "Island Sanctuary (ABC #1)")] = [] /\
  get_and_filter_prints "Island" [("0", "Island Sanctuary (ABC #1)")] ["xyz"] []
    = ([], false).
Proof.
  split; vm_compute; reflexivity.
Qed.

(** ** Canvas stabilization *)

Import Canvas.

Lemma wait_step_returns_sample : forall wfc init st h r,
  wait_step wfc init st (Some h) = inl r -> r = Some h.
Proof.
  intros wfc init st h r H. unfold wait_step in H. cbv zeta in H.
  match type of H with (if ?b then _ else _) = _ => destruct b end; [discriminate|].
  match type of H with (if ?b then _ else _) = _ => destruct b end; [|discriminate].
  injection H as <-. reflexivity.
Qed.

Lemma wait_step_not_prior : forall p st s r,
  wait_step true (Some p) st s = inl r -> hash_eqb r (Some p) = false.
Proof.
  intros p st [h|] r H; [|discriminate].
  pose proof (wait_step_returns_sample _ _ _ _ _ H) as ->.
  simpl. destruct (Z.eqb h p) eqn:Ehp; [|reflexivity].
  unfold wait_step in H. simpl in H. rewrite Ehp in H. discriminate.
Qed.

Lemma wait_loop_not_prior : forall p samples st,
  hash_eqb (wait_loop true (Some p) st samples) (Some p) = false.
Proof.
  intros p samples. induction samples as [|s rest IH]; intros st; [reflexivity|].
  simpl. destruct (wait_step true (Some p) st s) as [r|st'] eqn:E.
  - exact (wait_step_not_prior p st s r E).
  - apply IH.
Qed.

Lemma legacy_wait_loop_not_prior : forall p samples st,
  hash_eqb (legacy_wait_loop (Some p) st samples) (Some p) = false.
Proof.
  intros p samples. induction samples as [|[h|] rest IH]; intros st;
    [reflexivity| |apply IH].
  cbn [legacy_wait_loop]. change (hash_eqb (Some h) (Some p)) with (Z.eqb h p).
  destruct (Z.eqb h p) eqn:Ehp; [apply IH|]. cbv zeta.
  match goal with
  | |- context [if Nat.leb STABILITY_CHECKS ?x then _ else _] =>
      destruct (Nat.leb STABILITY_CHECKS x)
  end; [simpl; exact Ehp | apply IH].
Qed.

(** Claim C8: with a non-null prior hash and a change awaited, the wait
    never returns the prior hash, whatever the samples (in particular when
    the prior hash comes back after a different one), in both versions of
    [_wait_for_canvas_stabilization]; a sample equal to the prior hash leaves
    the stability window untouched, so it is not counted. *)
Theorem C8_never_returns_prior : forall p samples st rest,
  hash_eqb (wait_for_canvas_stabilization (Some p) true samples) (Some p) = false /\
  hash_eqb (legacy_wait_for_canvas_stabilization (Some p) samples) (Some p) = false /\
  wait_loop true (Some p) st (Some p :: rest) = wait_loop true (Some p) st rest /\
  legacy_wait_loop (Some p) st (Some p :: rest) = legacy_wait_loop (Some p) st rest.
Proof.
  intros p samples st rest. split; [apply wait_loop_not_prior|].
  split; [apply legacy_wait_loop_not_prior|].
  split; simpl; rewrite Z.eqb_refl; reflexivity.
Qed.

(** The sample sequence prior, new, prior, new, new: the wait returns new. *)
Example C8_reversion_example :
  wait_for_canvas_stabilization (Some 7%Z) true
    [Some 7%Z; Some 9%Z; Some 7%Z; Some 9%Z; Some 9%Z] = Some 9%Z.
Proof. reflexivity. Qed.

(** ** Overwrite policy and storage probes *)

Import Overwrite.

(** Claim C4: in upload mode, with no file at the output key the print is
    written; with a file there, [overwrite] writes; else an older-than
    threshold writes iff the file's timestamp is known and strictly older;
    else a newer-than threshold writes iff it is known and strictly newer;
    else the print is skipped, and the skip returns normally (no failure). *)
Theorem C4_overwrite_policy : forall upload_path last_modified overwrite older newer o n
    art_configured white_border prep border_raises,
  should_skip (Some upload_path) false last_modified overwrite older newer = false /\
  should_skip (Some upload_path) true last_modified true older newer = false /\
  should_skip (Some upload_path) true last_modified false (Some o) newer
    = negb (match last_modified with Some t => Z.ltb t o | None => false end) /\
  should_skip (Some upload_path) true last_modified false None (Some n)
    = negb (match last_modified with Some t => Z.ltb n t | None => false end) /\
  should_skip (Some upload_path) true last_modified false None None = true /\
  Main.capture_print art_configured white_border
    (Main.mkPrintInput true prep border_raises) = Main.Returned.
Proof.
  intros. repeat split; try reflexivity; simpl; destruct last_modified; reflexivity.
Qed.

(** Claim C5, counterexample: with the file at [T], an older-than threshold
    of [T+1h] writes (the file is older than the threshold) and one of
    [T-1h] skips, the opposite of the matrix. *)
Lemma C5_counterexample :
  should_skip (Some "/uploads/") true (Some matrix_T) false (Some (matrix_T + 3600)%Z) None
    = false /\
  should_skip (Some "/uploads/") true (Some matrix_T) false (Some (matrix_T - 3600)%Z) None
    = true.
Proof. split; reflexivity. Qed.

(** Claim C5 (as amended): for an existing file with timestamp [T]:
    overwrite writes; older_than = T+1h writes; older_than = T-1h skips;
    newer_than = T-1h writes; newer_than = T+1h skips; no flags skips. *)
Theorem C5_overwrite_matrix : forall upload_path T older newer,
  should_skip (Some upload_path) true (Some T) true older newer = false /\
  should_skip (Some upload_path) true (Some T) false (Some (T + 3600)%Z) None = false /\
  should_skip (Some upload_path) true (Some T) false (Some (T - 3600)%Z) None = true /\
  should_skip (Some upload_path) true (Some T) false None (Some (T - 3600)%Z) = false /\
  should_skip (Some upload_path) true (Some T) false None (Some (T + 3600)%Z) = true /\
  should_skip (Some upload_path) true (Some T) false None None = true.
Proof.
  intros u T older newer. simpl.
  repeat split; try reflexivity.
  - replace (T <? T + 3600)%Z with true by (symmetry; apply Z.ltb_lt; lia). reflexivity.
  - replace (T <? T - 3600)%Z with false by (symmetry; apply Z.ltb_ge; lia). reflexivity.
  - replace (T - 3600 <? T)%Z with true by (symmetry; apply Z.ltb_lt; lia). reflexivity.
  - replace (T + 3600 <? T)%Z with false by (symmetry; apply Z.ltb_ge; lia). reflexivity.
Qed.

(** Claim C10: for a non-empty URL, every HEAD outcome other than a 200
    response (404, any other status, a network exception) reads as
    (False, None) and as [False]; the overwrite pre-check then does not
    skip, whatever the flags; and a 200 whose Last-Modified header does not
    parse reads as (True, None). *)
Theorem C10_probe_failure_reads_as_absent : forall parse_http_date url r,
  truthy url = true ->
  (forall lm, r <> HeadResponse 200 lm) ->
  check_server_file_details parse_http_date url r = (false, None) /\
  check_if_file_exists_on_server url r = false /\
  (forall upload_path overwrite older newer,
     precheck parse_http_date (Some upload_path) url r overwrite older newer = false) /\
  (forall s, parse_http_date s = None ->
     check_server_file_details parse_http_date url (HeadResponse 200 (Some s)) = (true, None)).
Proof.
  intros parse url r Hurl Hr.
  assert (Hd : check_server_file_details parse url r = (false, None)).
  { unfold check_server_file_details. rewrite Hurl. simpl.
    destruct r as [status lm|]; [|reflexivity].
    destruct (Z.eqb status 200) eqn:E.
    - apply Z.eqb_eq in E. subst status. exfalso. exact (Hr lm eq_refl).
    - destruct (Z.eqb status 404); reflexivity. }
  split; [exact Hd|]. split.
  - unfold check_if_file_exists_on_server. rewrite Hurl. simpl.
    destruct r as [status lm|]; [|reflexivity].
    destruct (Z.eqb status 200) eqn:E; [|reflexivity].
    apply Z.eqb_eq in E. subst status. exfalso. exact (Hr lm eq_refl).
  - split.
    + intros u ov older newer. unfold precheck. rewrite Hd. reflexivity.
    + intros s Hs. unfold check_server_file_details. rewrite Hurl. simpl.
      destruct (truthy s); [rewrite Hs|]; reflexivity.
Qed.

Lemma C10_witness :
  truthy "http://host/cards/island_lea_1.png" = true /\
  (forall lm, HeadResponse 503 None <> HeadResponse 200 lm) /\
  check_server_file_details (fun _ => None) "http://host/cards/island_lea_1.png"
    (HeadResponse 503 None) = (false, None).
Proof.
  assert (H1 : truthy "http://host/cards/island_lea_1.png" = true) by reflexivity.
  assert (H2 : forall lm, HeadResponse 503 None <> HeadResponse 200 lm)
    by (intros lm H; discriminate H).
  split; [exact H1|]. split; [exact H2|].
  exact (proj1 (C10_probe_failure_reads_as_absent (fun _ => None) _ _ H1 H2)).
Defined.

(** ** Art asset pipeline *)

Import Art.

(** Stage 1 is a search for the first extension with a hit. *)
Lemma probe_original_find : forall c e st base exts,
  probe_original c e st base exts =
  match find (fun x => original_hit c e st (base ++ x)) exts with
  | Some x => hosted_url c e "original" (base ++ x)
  | None => None
  end.
Proof.
  intros c e st base exts. induction exts as [|y rest IH]; [reflexivity|].
  simpl. rewrite IH. unfold original_hit, hosted_url.
  destruct (image_server_url c) as [s|]; destruct (download_dir c) as [d|];
  simpl;
  repeat match goal with
  | |- context [server_has ?e ?st ?s ?sub ?f] => destruct (server_has e st s sub f)
  | |- context [key_mem ?k ?l] => destruct (key_mem k l)
  end; reflexivity.
Qed.

Lemma original_hit_after_save : forall c e st b f g,
  truthy b = true ->
  (image_server_url c <> None \/ download_dir c <> None) ->
  write_ok e "original" f = true ->
  probes_succeed c e ->
  original_hit c e (fst (save_or_upload_image c e st b "original" f)) g
  = original_hit c e st g || String.eqb g f.
Proof.
  intros c e st b f g Hb Hc Hw Hp. unfold save_or_upload_image, original_hit.
  rewrite Hb. simpl negb. cbv iota. rewrite Hw.
  destruct (image_server_url c) as [s|] eqn:Es; destruct (download_dir c) as [d|];
    [| | |exfalso; destruct Hc as [H|H]; apply H; reflexivity];
  unfold server_has, key_mem; cbn [server_files local_files fst existsb];
  unfold key_eqb; cbn [fst snd]; rewrite String.eqb_refl; cbn [andb];
  destruct (String.eqb g f) eqn:Egf;
  try (apply String.eqb_eq in Egf; subst g; rewrite (Hp s "original" f Es));
  repeat match goal with
  | |- context [existsb ?p ?l] => destruct (existsb p l)
  | |- context [Overwrite.check_if_file_exists_on_server ?u ?r] =>
      destruct (Overwrite.check_if_file_exists_on_server u r)
  end; reflexivity.
Qed.

Lemma find_after_add : forall (h g : string -> bool) l x,
  find h l = None -> In x l -> g x = true ->
  exists y, find (fun y => h y || g y) l = Some y /\ g y = true.
Proof.
  intros h g l x Hn Hin Hg. induction l as [|y rest IH]; [destruct Hin|].
  simpl in Hn |- *. destruct (h y); [discriminate|]. simpl.
  destruct (g y) eqn:Egy; [exists y; split; [reflexivity|exact Egy]|].
  apply IH; [exact Hn|]. destruct Hin as [<-|Hin]; [congruence|exact Hin].
Qed.

Lemma detected_ext_cases : forall pf b,
  In (snd (get_image_mime_type_and_extension pf b)) [".jpg"; ".png"; ".gif"; ".webp"; ""].
Proof.
  intros pf b. unfold get_image_mime_type_and_extension.
  repeat match goal with
  | |- context [match ?x with _ => _ end] => destruct x
  end; simpl; tauto.
Qed.

Lemma actual_ext_in : forall ext0 pf b,
  In (if truthy (snd (get_image_mime_type_and_extension pf b))
      then snd (get_image_mime_type_and_extension pf b) else ext0)
     (possible_extensions ext0).
Proof.
  intros ext0 pf b. pose proof (detected_ext_cases pf b) as Hx.
  set (x := snd (get_image_mime_type_and_extension pf b)) in *.
  unfold possible_extensions.
  destruct (truthy x) eqn:Ht; [|left; reflexivity].
  destruct (String.eqb x ext0) eqn:E;
    [left; symmetry; apply String.eqb_eq; exact E|].
  right. apply filter_In. rewrite E. split; [|reflexivity].
  destruct Hx as [Hx|[Hx|[Hx|[Hx|[Hx|[]]]]]]; rewrite <- Hx in *;
    simpl; tauto || discriminate.
Qed.

Lemma find_ext : forall (A : Type) (f g : A -> bool) l,
  (forall x, f x = g x) -> find f l = find g l.
Proof.
  intros A f g l H. induction l as [|y r IH]; [reflexivity|].
  simpl. rewrite H, IH. reflexivity.
Qed.

Lemma hosted_url_some : forall c e sub f,
  (image_server_url c <> None \/ download_dir c <> None) ->
  exists h, hosted_url c e sub f = Some h.
Proof.
  intros c e sub f Hc. unfold hosted_url.
  destruct (image_server_url c); [eexists; reflexivity|].
  destruct (download_dir c); [eexists; reflexivity|].
  exfalso. destruct Hc as [H|H]; apply H; reflexivity.
Qed.

Lemma probe_configured : forall c e st base exts,
  (image_server_url c <> None \/ download_dir c <> None) ->
  match image_server_url c, download_dir c with
  | None, None => None
  | _, _ => probe_original c e st base exts
  end = probe_original c e st base exts.
Proof.
  intros c e st base exts Hc.
  destruct (image_server_url c); [reflexivity|].
  destruct (download_dir c); [reflexivity|].
  exfalso. destruct Hc as [H|H]; apply H; reflexivity.
Qed.

Lemma finish_no_upscale : forall c e st base u tl hosted bytes evs,
  upscale_art c = false ->
  finish_art_asset c e st base u tl hosted bytes evs
  = (PrepPair (Some (match hosted with Some h => h | None => u end)) (Some tl), st, evs).
Proof.
  intros c e st base u tl hosted bytes evs H. unfold finish_art_asset.
  rewrite H. simpl. rewrite app_nil_r. reflexivity.
Qed.

Lemma finish_events : forall c e st base u tl hosted bytes evs,
  exists more, snd (finish_art_asset c e st base u tl hosted bytes evs) = app evs more.
Proof.
  intros. unfold finish_art_asset.
  lazymatch goal with
  | |- exists m, snd (match ?x with _ => _ end) = _ => destruct x as [[hu st2] evs2]
  end.
  eexists. reflexivity.
Qed.

(** [_prepare_art_asset] with upscaling off and a store configured. *)
Lemma prepare_no_upscale_shape : forall c e st card set cn u tl,
  upscale_art c = false ->
  (image_server_url c <> None \/ download_dir c <> None) ->
  scryfall_art_crop e card set cn = Some (u, tl) ->
  truthy u = true ->
  prepare_art_asset c e st card set cn =
  let base := safe_filename e card ++ "_" ++ safe_filename e set ++ "_"
              ++ safe_filename e cn in
  match probe_original c e st base (possible_extensions (initial_ext e u)) with
  | Some h => (PrepPair (Some h) (Some tl), st, [])
  | None =>
      match fetch_image_bytes e u with
      | Some b =>
          if truthy b then
            let x := snd (get_image_mime_type_and_extension (pil_format e) b) in
            let f := base ++ (if truthy x then x else initial_ext e u) in
            (PrepPair (Some (match hosted_url c e "original" f with
                             | Some h => h | None => u end)) (Some tl),
             fst (save_or_upload_image c e st b "original" f),
             EvFetch u :: snd (save_or_upload_image c e st b "original" f))
          else (PrepNone, st, [EvFetch u])
      | None => (PrepNone, st, [EvFetch u])
      end
  end.
Proof.
  intros c e st card set cn u tl Hup Hc Hs Hu. unfold prepare_art_asset.
  rewrite Hs, Hu. cbv zeta. simpl negb. cbv iota.
  rewrite probe_configured by exact Hc. rewrite Hup, orb_false_r.
  destruct (probe_original _ _ _ _ _) as [h|].
  - simpl. rewrite finish_no_upscale by exact Hup. reflexivity.
  - simpl. destruct (fetch_image_bytes e u) as [b|]; [|reflexivity].
    destruct (truthy b); [|reflexivity].
    match goal with
    | |- (let (_, _) := ?s in _) = _ => destruct s as [st1 evs1] eqn:Esave
    end.
    rewrite finish_no_upscale by exact Hup. simpl. reflexivity.
Qed.

Lemma probe_original_empty : forall c e base exts,
  probe_original c e (mkStore [] []) base exts = None.
Proof.
  intros c e base exts. rewrite probe_original_find.
  assert (H : find (fun x => original_hit c e (mkStore [] []) (base ++ x)) exts = None).
  { induction exts as [|y r IH]; [reflexivity|]. simpl. rewrite IH.
    unfold original_hit, server_has. simpl.
    destruct (image_server_url c), (download_dir c); reflexivity. }
  rewrite H. reflexivity.
Qed.

(** Stage 2 runs, and fetches the art crop, when upscaling is on or the
    store holds nothing yet. *)
Lemma prepare_fetches : forall c e st card set cn u tl,
  (upscale_art c = true \/ st = mkStore [] []) ->
  scryfall_art_crop e card set cn = Some (u, tl) ->
  truthy u = true ->
  In (EvFetch u) (snd (prepare_art_asset c e st card set cn)).
Proof.
  intros c e st card set cn u tl Hst Hs Hu. unfold prepare_art_asset.
  rewrite Hs, Hu. cbv zeta. simpl negb. cbv iota.
  match goal with
  | |- In _ (snd (if ?b then _ else _)) => assert (Hb : b = true)
  end.
  { destruct Hst as [Hup | ->]; [rewrite Hup; apply orb_true_r|].
    rewrite probe_original_empty.
    destruct (image_server_url c), (download_dir c); reflexivity. }
  rewrite Hb.
  destruct (fetch_image_bytes e u) as [b|]; [|left; reflexivity].
  destruct (truthy b); [|left; reflexivity].
  destruct (match image_server_url c, download_dir c with
            | None, None => None | _, _ => _ end).
  - destruct (finish_events c e st (safe_filename e card ++ "_" ++ safe_filename e set
                ++ "_" ++ safe_filename e cn) u tl (Some s) (Some b) [EvFetch u])
      as [more Hm].
    rewrite Hm. left. reflexivity.
  - match goal with
    | |- In _ (snd (let (_, _) := ?s in _)) => destruct s as [st1 evs1]
    end.
    match goal with
    | |- In _ (snd (finish_art_asset ?c ?e ?st ?b ?u ?tl ?h ?bt ?ev)) =>
        destruct (finish_events c e st b u tl h bt ev) as [more Hm]
    end.
    rewrite Hm. left. reflexivity.
Qed.

Lemma save_failed_store : forall c e st b sub f,
  write_ok e sub f = false -> fst (save_or_upload_image c e st b sub f) = st.
Proof.
  intros c e st b sub f Hw. unfold save_or_upload_image.
  destruct (negb (truthy b)); [reflexivity|].
  destruct (download_dir c); [rewrite Hw; reflexivity|].
  destruct (image_server_url c); [rewrite Hw|]; reflexivity.
Qed.

Ltac save_keeps_store Hw :=
  match goal with
  | |- context [save_or_upload_image ?c ?e ?st ?b ?sub ?f] =>
      let Hs := fresh in
      pose proof (save_failed_store c e st b sub f (Hw sub f)) as Hs;
      destruct (save_or_upload_image c e st b sub f) as [? ?];
      cbn [fst] in Hs; subst
  end.

Lemma upscale_stage_store : forall c e st base u h,
  (forall sub f, write_ok e sub f = false) ->
  snd (fst (upscale_stage c e st base u h)) = st.
Proof.
  intros c e st base u h Hw. unfold upscale_stage. cbv zeta.
  match goal with |- snd (fst (if ?b then _ else _)) = _ => destruct b end;
    [reflexivity|].
  destruct (upscale_with_ilaria e _) as [ub|]; [|reflexivity].
  destruct (truthy ub); [|reflexivity].
  save_keeps_store Hw. reflexivity.
Qed.

Lemma finish_store : forall c e st base u tl h ob evs,
  (forall sub f, write_ok e sub f = false) ->
  snd (fst (finish_art_asset c e st base u tl h ob evs)) = st.
Proof.
  intros c e st base u tl h ob evs Hw. unfold finish_art_asset.
  match goal with |- context [if ?b then _ else _] => destruct b end;
    [|reflexivity].
  pose proof (upscale_stage_store c e st base u h Hw) as Hu.
  destruct (upscale_stage c e st base u h) as [[hu st2] evs2]. exact Hu.
Qed.

(** When every write fails, [_prepare_art_asset] leaves the store as it
    found it. *)
Lemma prepare_store_unchanged : forall c e st card set cn,
  (forall sub f, write_ok e sub f = false) ->
  snd (fst (prepare_art_asset c e st card set cn)) = st.
Proof.
  intros c e st card set cn Hw. unfold prepare_art_asset.
  destruct (scryfall_art_crop e card set cn) as [[u tl]|]; [|reflexivity].
  destruct (negb (truthy u)); [reflexivity|]. cbv zeta.
  match goal with |- snd (fst (if ?b then _ else _)) = _ => destruct b end.
  - destruct (fetch_image_bytes e u) as [b|]; [|reflexivity].
    destruct (truthy b); [|reflexivity].
    destruct (match image_server_url c, download_dir c with
              | None, None => None | _, _ => _ end).
    + apply finish_store, Hw.
    + save_keeps_store Hw. apply finish_store, Hw.
  - apply finish_store, Hw.
Qed.

Ltac second_call_irrelevant :=
  match goal with
  | |- context [prepare_art_asset ?a ?b ?s0 ?d ?e0 ?g] =>
      destruct (prepare_art_asset a b s0 d e0 g) as [[? ?] ?]
  end;
  let H := fresh in intro H; apply H; reflexivity.

(** Claim C9. Take a second [_prepare_art_asset] call with the same
    (card_name, set_code, collector_number), against the store left by a
    first call that produced a result. If the image server or the download
    dir is configured, upscaling is off, every save or upload succeeds and
    the [HEAD] on a file the server holds answers 200, the second call
    returns the same result and makes no fetch and no upscale call. With
    upscaling on, the second call fetches the Scryfall art crop again; and
    when the saves fail, a second call after a first one on an empty store
    fetches it again too. *)
Theorem C9_second_call_cached : forall c e st card set cn,
  upscale_art c = false ->
  (image_server_url c <> None \/ download_dir c <> None) ->
  writes_succeed e ->
  probes_succeed c e ->
  fst (fst (prepare_twice c e st card set cn)) <> PrepNone ->
  (existsb is_fetch (snd (snd (prepare_twice c e st card set cn))) = false /\
   existsb is_upscale (snd (snd (prepare_twice c e st card set cn))) = false /\
   fst (snd (prepare_twice c e st card set cn))
   = fst (fst (prepare_twice c e st card set cn))) /\
  (forall c' u tl, upscale_art c' = true ->
     scryfall_art_crop e card set cn = Some (u, tl) -> truthy u = true ->
     In (EvFetch u) (snd (snd (prepare_twice c' e st card set cn)))) /\
  (forall c' e' u tl, (forall sub f, write_ok e' sub f = false) ->
     scryfall_art_crop e' card set cn = Some (u, tl) -> truthy u = true ->
     In (EvFetch u) (snd (snd (prepare_twice c' e' (mkStore [] []) card set cn)))).
Proof.
  intros c e st card set cn Hup Hc Hw Hp Hr1. split; [|split].
  2:{ intros c' u tl Hup' Hs Hu. unfold prepare_twice.
      destruct (prepare_art_asset c' e st card set cn) as [[r1 st1] ev1].
      pose proof (prepare_fetches c' e st1 card set cn u tl (or_introl Hup') Hs Hu) as Hf.
      destruct (prepare_art_asset c' e st1 card set cn) as [[r2 st2] ev2].
      exact Hf. }
  2:{ intros c' e' u tl Hw' Hs Hu. unfold prepare_twice.
      pose proof (prepare_store_unchanged c' e' (mkStore [] []) card set cn Hw') as Hst.
      destruct (prepare_art_asset c' e' (mkStore [] []) card set cn) as [[r1 st1] ev1].
      cbn [fst snd] in Hst. subst st1.
      pose proof (prepare_fetches c' e' (mkStore [] []) card set cn u tl
                    (or_intror eq_refl) Hs Hu) as Hf.
      destruct (prepare_art_asset c' e' (mkStore [] []) card set cn) as [[r2 st2] ev2].
      exact Hf. }
  unfold prepare_twice in *.
  destruct (scryfall_art_crop e card set cn) as [[u tl]|] eqn:Hs.
  2:{ unfold prepare_art_asset. rewrite Hs. simpl. auto. }
  destruct (truthy u) eqn:Hu.
  2:{ unfold prepare_art_asset. rewrite Hs, Hu. simpl. auto. }
  rewrite (prepare_no_upscale_shape c e st card set cn u tl Hup Hc Hs Hu) in Hr1 |- *.
  cbv zeta in Hr1 |- *.
  set (base := safe_filename e card ++ "_" ++ safe_filename e set ++ "_"
               ++ safe_filename e cn) in *.
  set (exts := possible_extensions (initial_ext e u)) in *.
  destruct (probe_original c e st base exts) as [h|] eqn:Hp1.
  - cbv beta iota.
    rewrite (prepare_no_upscale_shape c e st card set cn u tl Hup Hc Hs Hu).
    cbv zeta. fold base exts. rewrite Hp1. simpl. auto.
  - destruct (fetch_image_bytes e u) as [b|] eqn:Hf;
      [|exfalso; revert Hr1; second_call_irrelevant].
    destruct (truthy b) eqn:Hb; [|exfalso; revert Hr1; second_call_irrelevant].
    set (x := snd (get_image_mime_type_and_extension (pil_format e) b)) in *.
    set (f := base ++ (if truthy x then x else initial_ext e u)) in *.
    cbv beta iota.
    rewrite (prepare_no_upscale_shape c e (fst (save_or_upload_image c e st b "original" f))
               card set cn u tl Hup Hc Hs Hu).
    cbv zeta. fold base exts.
    rewrite probe_original_find.
    rewrite (find_ext _ _ (fun y => original_hit c e st (base ++ y)
                                    || String.eqb (base ++ y) f))
      by (intro y; apply original_hit_after_save; [exact Hb|exact Hc|apply Hw|exact Hp]).
    assert (Hn : find (fun y => original_hit c e st (base ++ y)) exts = None).
    { rewrite probe_original_find in Hp1.
      destruct (find _ exts) as [y|]; [|reflexivity].
      destruct (hosted_url_some c e "original" (base ++ y) Hc) as [h Hh].
      congruence. }
    destruct (find_after_add (fun y => original_hit c e st (base ++ y))
                (fun y => String.eqb (base ++ y) f) exts
                (if truthy x then x else initial_ext e u) Hn)
      as [y [Hy Hg]].
    + apply actual_ext_in.
    + apply String.eqb_refl.
    + rewrite Hy. apply String.eqb_eq in Hg. rewrite Hg.
      destruct (hosted_url_some c e "original" f Hc) as [h Hh]. rewrite Hh.
      simpl. auto.
Qed.

Lemma C9_witness :
  upscale_art local_config = false /\
  (image_server_url local_config <> None \/ download_dir local_config <> None) /\
  writes_succeed demo_env /\
  probes_succeed local_config demo_env /\
  fst (fst (prepare_twice local_config demo_env empty_store "Island" "lea" "1"))
    <> PrepNone /\
  existsb is_fetch
    (snd (snd (prepare_twice local_config demo_env empty_store "Island" "lea" "1")))
  = false.
Proof.
  assert (H1 : upscale_art local_config = false) by reflexivity.
  assert (H2 : image_server_url local_config <> None
               \/ download_dir local_config <> None)
    by (right; vm_compute; discriminate).
  assert (H3 : writes_succeed demo_env) by (intros sub f; reflexivity).
  assert (H4 : probes_succeed local_config demo_env)
    by (intros s sub f H; discriminate H).
  assert (H5 : fst (fst (prepare_twice local_config demo_env empty_store
                           "Island" "lea" "1")) <> PrepNone)
    by (vm_compute; discriminate).
  exact (conj H1 (conj H2 (conj H3 (conj H4 (conj H5
    (proj1 (proj1 (C9_second_call_cached local_config demo_env empty_store
                     "Island" "lea" "1" H1 H2 H3 H4 H5)))))))).
Defined.

(** Claim C9, counterexample: in upload mode with upscaling on (the
    upscaler reads the art crop URL), a second call over the store left by
    the first returns the same upscaled URL but fetches the art crop
    again. *)
Example C9_counterexample :
  fst (fst (prepare_twice upload_upscale_config demo_env empty_store "Island" "lea" "1"))
  = PrepPair (Some "http://img/art/realesrgan_x2plus-4x/island_lea_1.png")
             (Some "Basic Land - Island") /\
  fst (snd (prepare_twice upload_upscale_config demo_env empty_store "Island" "lea" "1"))
  = PrepPair (Some "http://img/art/realesrgan_x2plus-4x/island_lea_1.png")
             (Some "Basic Land - Island") /\
  snd (snd (prepare_twice upload_upscale_config demo_env empty_store "Island" "lea" "1"))
  = [EvFetch island_art_crop].
Proof. vm_compute. split; [|split]; reflexivity. Qed.

(** Claim C2. When the Scryfall art crop cannot be fetched and stage 2
    runs (no original on record yet, or upscaling on),
    [_prepare_art_asset] returns a bare [None], not a pair. The caller's
    tuple unpacking then raises [TypeError]. That exception leaves
    [process_and_capture_card], and [main]'s outer handler ends the run
    with status 1. *)
Theorem C2_fetch_failure_bare_none : forall c e st card set cn u tl,
  scryfall_art_crop e card set cn = Some (u, tl) ->
  truthy u = true ->
  (upscale_art c = true \/ st = mkStore [] []) ->
  fetch_image_bytes e u = None ->
  fst (fst (prepare_art_asset c e st card set cn)) = PrepNone /\
  unpack_prep (fst (fst (prepare_art_asset c e st card set cn))) = None /\
  (forall wb br rest,
     Main.main_selenium true
       (fun _ => Main.process_and_capture_card true wb
          [Main.mkPrintInput false (fst (fst (prepare_art_asset c e st card set cn))) br])
       (card :: rest)
     = ([card], 1%nat)).
Proof.
  intros c e st card set cn u tl Hs Hu Hst Hf.
  assert (H : fst (fst (prepare_art_asset c e st card set cn)) = PrepNone).
  { unfold prepare_art_asset. rewrite Hs, Hu. cbv zeta. simpl negb. cbv iota.
    destruct Hst as [Hup | ->].
    - rewrite Hup, orb_true_r. rewrite Hf. reflexivity.
    - rewrite probe_original_empty.
      destruct (image_server_url c), (download_dir c); simpl; rewrite Hf; reflexivity. }
  rewrite H. split; [reflexivity|]. split; [reflexivity|].
  intros wb br rest. reflexivity.
Qed.

Lemma C2_witness :
  scryfall_art_crop fetch_fails_env "Island" "lea" "1"
    = Some ("https://cards.scryfall.io/art_crop/front/island.jpg?1",
            "Basic Land - Island") /\
  unpack_prep (fst (fst (prepare_art_asset local_config fetch_fails_env empty_store
                           "Island" "lea" "1"))) = None.
Proof.
  assert (Hs : scryfall_art_crop fetch_fails_env "Island" "lea" "1"
                 = Some ("https://cards.scryfall.io/art_crop/front/island.jpg?1",
                         "Basic Land - Island")) by reflexivity.
  assert (Hu : truthy "https://cards.scryfall.io/art_crop/front/island.jpg?1" = true)
    by reflexivity.
  assert (Hst : upscale_art local_config = true \/ empty_store = mkStore [] [])
    by (right; reflexivity).
  assert (Hf : fetch_image_bytes fetch_fails_env
                 "https://cards.scryfall.io/art_crop/front/island.jpg?1" = None)
    by reflexivity.
  exact (conj Hs (proj1 (proj2 (C2_fetch_failure_bare_none local_config fetch_fails_env
    empty_store "Island" "lea" "1" _ _ Hs Hu Hst Hf)))).
Defined.

Import Main.

Lemma main_loop_stops : forall (process : string -> outcome) pre c post x,
  Forall (fun d => process d = Returned) pre ->
  process c = Raised x ->
  main_loop process (app pre (c :: post)) = (app pre [c], Some x).
Proof.
  intros process pre c post x Hpre Hc.
  induction Hpre as [|d pre' Hd _ IH]; simpl.
  - rewrite Hc. reflexivity.
  - rewrite Hd, IH. reflexivity.
Qed.

(** Claim C3. As shipped, the selenium run of [main] attempts no card:
    the [CardConjurerAutomator(...)] call passes keywords that [__init__]
    does not name ([spells_include_sets] and others), so it raises
    [TypeError] before its body starts the renderer session, whatever that
    body and the cards would do, and the outer handler exits with status 1.
    Nor does the card loop catch per card: once setup returns, an exception
    escaping [process_and_capture_card] for card [c] (a re-raised
    white-border error, the [TypeError] of a bare [None] from
    [_prepare_art_asset]) ends the run with status 1 and no card after [c]
    is attempted. *)
Theorem C3_run_aborts :
  forall (process : string -> outcome) pre c post x,
  Forall (fun d => process d = Returned) pre ->
  process c = Raised x ->
  (forall init_body frame_body cards,
     call_with_kwargs automator_init_params main_selenium_init_kwargs init_body
       = Raised "TypeError: unexpected keyword argument" /\
     main_selenium_shipped init_body frame_body process cards = ([], 1%nat)) /\
  main_selenium true process (app pre (c :: post)) = (app pre [c], 1%nat).
Proof.
  intros process pre c post x Hpre Hc. split.
  - intros init_body frame_body cards. split; reflexivity.
  - unfold main_selenium. rewrite (main_loop_stops process pre c post x Hpre Hc).
    reflexivity.
Qed.

Lemma C3_witness :
  main_selenium_shipped Returned Returned
    (fun card => if String.eqb card "B" then Raised "white border error" else Returned)
    ["A"; "B"; "C"] = ([], 1%nat) /\
  main_selenium true
    (fun card => if String.eqb card "B" then Raised "white border error" else Returned)
    ["A"; "B"; "C"] = (["A"; "B"], 1%nat).
Proof.
  assert (Hpre : Forall (fun d => (fun card => if String.eqb card "B"
                          then Raised "white border error" else Returned) d = Returned) ["A"])
    by (apply Forall_cons; [reflexivity | apply Forall_nil]).
  destruct (C3_run_aborts
              (fun card => if String.eqb card "B" then Raised "white border error" else Returned)
              ["A"] "B" ["C"] "white border error" Hpre eq_refl) as [Hs Hl].
  split; [|exact Hl].
  exact (proj2 (Hs Returned Returned ["A"; "B"; "C"])).
Defined.

(* ================================================================= *)
(** ** Filename sanitising *)

Import PyText SafeName.

Lemma all_chars_app : forall p a b,
  all_chars p (a ++ b) = all_chars p a && all_chars p b.
Proof.
  intros p a b. induction a as [|c r IH]; [reflexivity|].
  simpl. rewrite IH. apply andb_assoc.
Qed.

Lemma all_chars_impl : forall (p q : ascii -> bool) s,
  (forall c, p c = true -> q c = true) -> all_chars p s = true -> all_chars q s = true.
Proof.
  intros p q s H. induction s as [|c r IH]; [reflexivity|].
  simpl. intros Hs. apply andb_prop in Hs as [H1 H2].
  rewrite (H c H1), (IH H2). reflexivity.
Qed.

Lemma remove_chars : forall (p : ascii -> bool) d s,
  all_chars p s = true -> all_chars (fun c => p c && negb (Ascii.eqb c d)) (remove d s) = true.
Proof.
  intros p d s. induction s as [|c r IH]; [reflexivity|].
  simpl. intros Hs. apply andb_prop in Hs as [H1 H2].
  destruct (Ascii.eqb c d) eqn:E; [apply IH; exact H2|].
  simpl. rewrite H1, E, (IH H2). reflexivity.
Qed.

Lemma nfkd_ascii_char_folded : forall c,
  implb (negb (Ascii.eqb c "'") && negb (Ascii.eqb c ","))
        (all_chars folded_char (nfkd_ascii_char c)) = true.
Proof.
  intros [[] [] [] [] [] [] [] []]; vm_compute; reflexivity.
Qed.

Lemma nfkd_ascii_folded : forall s,
  all_chars (fun c => negb (Ascii.eqb c "'") && negb (Ascii.eqb c ",")) s = true ->
  all_chars folded_char (nfkd_ascii s) = true.
Proof.
  intros s. induction s as [|c r IH]; [reflexivity|].
  simpl. intros Hs. apply andb_prop in Hs as [H1 H2].
  rewrite all_chars_app, (IH H2), andb_true_r.
  pose proof (nfkd_ascii_char_folded c) as Hc. rewrite H1 in Hc. exact Hc.
Qed.

Lemma sub_runs_chars : forall (p P : ascii -> bool) b s,
  P "-"%char = true -> all_chars P s = true -> all_chars P (sub_runs p b s) = true.
Proof.
  intros p P b s Hd. revert b. induction s as [|c r IH]; intros b; [reflexivity|].
  simpl. intros Hs. apply andb_prop in Hs as [H1 H2].
  destruct (p c), b; simpl; try rewrite Hd; try rewrite H1; simpl; apply IH; exact H2.
Qed.

Lemma sub_runs_no_class : forall (p : ascii -> bool) b s,
  p "-"%char = false -> all_chars (fun c => negb (p c)) (sub_runs p b s) = true.
Proof.
  intros p b s Hd. revert b. induction s as [|c r IH]; intros b; [reflexivity|].
  simpl. destruct (p c) eqn:E, b; simpl; try rewrite Hd; try rewrite E; simpl; apply IH.
Qed.

Lemma sub_runs_dash_shape : forall s b,
  no_double_dash (sub_runs is_dash b s) = true /\
  (b = true -> starts_p is_dash (sub_runs is_dash b s) = false).
Proof.
  induction s as [|c r IH]; intros b; [split; reflexivity|].
  simpl. destruct (is_dash c) eqn:E.
  - destruct b.
    + exact (IH true).
    + destruct (IH true) as [H1 H2]. split; [|discriminate].
      simpl. destruct (sub_runs is_dash true r) as [|d t] eqn:Er; [reflexivity|].
      simpl in H2. rewrite (H2 eq_refl). simpl. exact H1.
  - destruct (IH false) as [H1 _]. split; [|intros _; exact E].
    simpl. destruct (sub_runs is_dash false r) as [|d t]; [reflexivity|].
    rewrite E. exact H1.
Qed.

Lemma lstrip_by_chars : forall p P s,
  all_chars P s = true -> all_chars P (lstrip_by p s) = true.
Proof.
  intros p P s. induction s as [|c r IH]; [reflexivity|].
  simpl. intros Hs. destruct (p c); [|exact Hs].
  apply andb_prop in Hs as [_ H2]. apply IH. exact H2.
Qed.

Lemma lstrip_by_no_double_dash : forall p s,
  no_double_dash s = true -> no_double_dash (lstrip_by p s) = true.
Proof.
  intros p s. induction s as [|c r IH]; [reflexivity|].
  intros Hs. simpl. destruct (p c); [|exact Hs].
  apply IH. destruct r as [|d t]; [reflexivity|].
  simpl in Hs. apply andb_prop in Hs as [_ H]. exact H.
Qed.

Lemma lstrip_by_start : forall p s, starts_p p (lstrip_by p s) = false.
Proof.
  intros p s. induction s as [|c r IH]; [reflexivity|].
  simpl. destruct (p c) eqn:E; [exact IH|exact E].
Qed.

Lemma rstrip_by_chars : forall p P s,
  all_chars P s = true -> all_chars P (rstrip_by p s) = true.
Proof.
  intros p P s. induction s as [|c r IH]; [reflexivity|].
  simpl. intros Hs. apply andb_prop in Hs as [H1 H2].
  destruct (negb (truthy (rstrip_by p r)) && p c); [reflexivity|].
  simpl. rewrite H1. apply IH. exact H2.
Qed.

Lemma rstrip_by_head : forall p s c r,
  rstrip_by p s = String c r -> exists r0, s = String c r0.
Proof.
  intros p s c r. destruct s as [|d t]; [discriminate|].
  simpl. destruct (negb (truthy (rstrip_by p t)) && p d); [discriminate|].
  intros H. injection H as -> _. exists t. reflexivity.
Qed.

Lemma rstrip_by_no_double_dash : forall p s,
  no_double_dash s = true -> no_double_dash (rstrip_by p s) = true.
Proof.
  intros p s. induction s as [|c r IH]; [reflexivity|].
  intros Hs. simpl.
  assert (Hr : no_double_dash r = true).
  { destruct r as [|d t]; [reflexivity|]. simpl in Hs.
    apply andb_prop in Hs as [_ H]. exact H. }
  destruct (negb (truthy (rstrip_by p r)) && p c); [reflexivity|].
  destruct (rstrip_by p r) as [|d t] eqn:Er; [reflexivity|].
  destruct (rstrip_by_head p r d t Er) as [r0 ->].
  simpl in Hs. apply andb_prop in Hs as [H1 _].
  change (negb (is_dash c && is_dash d) && no_double_dash (String d t) = true).
  rewrite H1, andb_true_l. apply IH. exact Hr.
Qed.

Lemma rstrip_by_end : forall p s, ends_p p (rstrip_by p s) = false.
Proof.
  intros p s. induction s as [|c r IH]; [reflexivity|].
  simpl. destruct (truthy (rstrip_by p r)) eqn:T; simpl.
  - destruct (rstrip_by p r) as [|d t]; [discriminate|]. exact IH.
  - destruct (rstrip_by p r) as [|d t]; [|discriminate].
    destruct (p c) eqn:E; [reflexivity|exact E].
Qed.

Lemma rstrip_by_start : forall p q s,
  starts_p q s = false -> starts_p q (rstrip_by p s) = false.
Proof.
  intros p q s H. destruct s as [|c r]; [reflexivity|].
  simpl. destruct (negb (truthy (rstrip_by p r)) && p c); [reflexivity|exact H].
Qed.

Lemma lower_char_safe : forall c,
  implb (folded_char c && negb (is_sep c))
        (safe_char (lower_char c) && Bool.eqb (is_dash (lower_char c)) (is_dash c)) = true.
Proof.
  intros [[] [] [] [] [] [] [] []]; vm_compute; reflexivity.
Qed.

Lemma lower_safe : forall s,
  all_chars (fun c => folded_char c && negb (is_sep c)) s = true ->
  all_chars safe_char (lower s) = true /\
  no_double_dash (lower s) = no_double_dash s /\
  starts_p is_dash (lower s) = starts_p is_dash s /\
  ends_p is_dash (lower s) = ends_p is_dash s.
Proof.
  induction s as [|c r IH]; [repeat split; reflexivity|].
  intros Hs. simpl in Hs. apply andb_prop in Hs as [H1 H2].
  pose proof (lower_char_safe c) as Hc. rewrite H1 in Hc. simpl in Hc.
  apply andb_prop in Hc as [Hc1 Hc2]. apply Bool.eqb_prop in Hc2.
  destruct (IH H2) as [I1 [I2 [I3 I4]]].
  split; [|split; [|split]].
  - change (safe_char (lower_char c) && all_chars safe_char (lower r) = true).
    rewrite Hc1, I1. reflexivity.
  - destruct r as [|d t]; [reflexivity|].
    change (negb (is_dash (lower_char c) && is_dash (lower_char d))
              && no_double_dash (lower (String d t))
            = negb (is_dash c && is_dash d) && no_double_dash (String d t)).
    change (is_dash (lower_char d) = is_dash d) in I3.
    rewrite I2, Hc2, I3. reflexivity.
  - exact Hc2.
  - destruct r as [|d t]; [exact Hc2|]. exact I4.
Qed.

Lemma all_chars_and : forall (p q : ascii -> bool) s,
  all_chars (fun c => p c && q c) s = all_chars p s && all_chars q s.
Proof.
  intros p q s. induction s as [|c r IH]; [reflexivity|].
  simpl. rewrite IH. destruct (p c), (q c), (all_chars p r), (all_chars q r); reflexivity.
Qed.

Lemma remove_id : forall d s,
  all_chars (fun c => negb (Ascii.eqb c d)) s = true -> remove d s = s.
Proof.
  intros d s. induction s as [|c r IH]; [reflexivity|].
  simpl. intros Hs. apply andb_prop in Hs as [H1 H2].
  destruct (Ascii.eqb c d); [discriminate|]. rewrite (IH H2). reflexivity.
Qed.

Lemma nfkd_ascii_id : forall s,
  all_chars (fun c => (nat_of_ascii c <? 128)%nat) s = true -> nfkd_ascii s = s.
Proof.
  intros s. induction s as [|c r IH]; [reflexivity|].
  simpl. intros Hs. apply andb_prop in Hs as [H1 H2].
  unfold nfkd_ascii_char. rewrite H1. simpl. rewrite (IH H2). reflexivity.
Qed.

Lemma sub_runs_id : forall (p : ascii -> bool) b s,
  all_chars (fun c => negb (p c)) s = true -> sub_runs p b s = s.
Proof.
  intros p b s. revert b. induction s as [|c r IH]; intros b; [reflexivity|].
  simpl. intros Hs. apply andb_prop in Hs as [H1 H2].
  destruct (p c); [discriminate|]. rewrite (IH false H2). reflexivity.
Qed.

Lemma sub_runs_dash_id : forall s b,
  no_double_dash s = true -> (b = true -> starts_p is_dash s = false) ->
  sub_runs is_dash b s = s.
Proof.
  induction s as [|c r IH]; intros b Hs Hb; [reflexivity|].
  assert (Hr : no_double_dash r = true).
  { destruct r as [|d t]; [reflexivity|]. simpl in Hs.
    apply andb_prop in Hs as [_ H]. exact H. }
  simpl. destruct (is_dash c) eqn:E.
  - destruct b; [specialize (Hb eq_refl); simpl in Hb; rewrite Hb in E; discriminate|].
    apply Ascii.eqb_eq in E. subst c. rewrite (IH true Hr); [reflexivity|].
    intros _. destruct r as [|d t]; [reflexivity|].
    change (negb (is_dash "-" && is_dash d) && no_double_dash (String d t) = true) in Hs.
    simpl. destruct (is_dash d); [|reflexivity]. vm_compute in Hs. discriminate.
  - rewrite (IH false Hr); [reflexivity|discriminate].
Qed.

Lemma lstrip_by_id : forall p s, starts_p p s = false -> lstrip_by p s = s.
Proof.
  intros p [|c r] H; [reflexivity|]. simpl in *. rewrite H. reflexivity.
Qed.

Lemma rstrip_by_id : forall p s, ends_p p s = false -> rstrip_by p s = s.
Proof.
  intros p s. induction s as [|c r IH]; intros H; [reflexivity|].
  destruct r as [|d t].
  - simpl in *. rewrite H. reflexivity.
  - change (rstrip_by p (String c (String d t)))
      with (let r' := rstrip_by p (String d t) in
            if negb (truthy r') && p c then EmptyString else String c r').
    cbv zeta. rewrite (IH H). reflexivity.
Qed.

Lemma lower_id : forall s,
  all_chars (fun c => negb (isupper c)) s = true -> lower s = s.
Proof.
  intros s. induction s as [|c r IH]; [reflexivity|].
  simpl. intros Hs. apply andb_prop in Hs as [H1 H2].
  unfold lower_char. destruct (isupper c); [discriminate|].
  rewrite (IH H2). reflexivity.
Qed.

Lemma gsf_shape : forall v,
  let r := generate_safe_filename v in
  all_chars safe_char r = true /\ no_double_dash r = true /\
  starts_p is_dash r = false /\ ends_p is_dash r = false.
Proof.
  intros v. unfold generate_safe_filename. cbv zeta.
  assert (H1 : all_chars (fun c => negb (Ascii.eqb c "'") && negb (Ascii.eqb c ","))
                 (remove "," (remove "'" v)) = true).
  { refine (all_chars_impl _ _ _ _ (remove_chars _ "," _ (remove_chars (fun _ => true) "'" v _))).
    - intros c Hc. exact Hc.
    - induction v as [|c r IH]; [reflexivity|exact IH]. }
  pose proof (nfkd_ascii_folded _ H1) as H2.
  set (s2 := nfkd_ascii (remove "," (remove "'" v))) in *.
  assert (H3 : all_chars (fun c => folded_char c && negb (is_sep c))
                 (sub_runs is_sep false s2) = true).
  { rewrite all_chars_and, (sub_runs_chars _ _ _ _ eq_refl H2).
    apply sub_runs_no_class. reflexivity. }
  set (s3 := sub_runs is_sep false s2) in *.
  pose proof (sub_runs_chars is_dash _ false s3 eq_refl H3) as H4.
  destruct (sub_runs_dash_shape s3 false) as [H4' _].
  set (s4 := sub_runs is_dash false s3) in *.
  unfold strip_by.
  set (s5 := rstrip_by is_dash (lstrip_by is_dash s4)).
  assert (H5 : all_chars (fun c => folded_char c && negb (is_sep c)) s5 = true).
  { apply rstrip_by_chars, lstrip_by_chars, H4. }
  destruct (lower_safe s5 H5) as [L1 [L2 [L3 L4]]].
  rewrite L2, L3, L4. split; [exact L1|]. split; [|split].
  - apply rstrip_by_no_double_dash, lstrip_by_no_double_dash, H4'.
  - apply rstrip_by_start, lstrip_by_start.
  - apply rstrip_by_end.
Qed.

(** [generate_safe_filename] returns only ASCII characters, none of them
    an apostrophe, a comma, an upper case letter, whitespace or one of
    / : < > double quote, backslash, | ? * and &; it never has two ['-']
    in a row, and it neither starts nor ends with ['-']. *)
Theorem generate_safe_filename_shape : forall v,
  let r := generate_safe_filename v in
  all_chars safe_char r = true /\ no_double_dash r = true /\
  starts_p is_dash r = false /\ ends_p is_dash r = false.
Proof. exact gsf_shape. Qed.

Lemma safe_char_parts : forall c, safe_char c = true ->
  (nat_of_ascii c <? 128)%nat = true /\ negb (Ascii.eqb c "'") = true /\
  negb (Ascii.eqb c ",") = true /\ negb (is_sep c) = true /\ negb (isupper c) = true.
Proof.
  intros c H. unfold safe_char in H. rewrite !andb_true_iff in H. tauto.
Qed.

(** Sanitising a name that [generate_safe_filename] already returned
    changes nothing. *)
Theorem generate_safe_filename_idempotent : forall v,
  generate_safe_filename (generate_safe_filename v) = generate_safe_filename v.
Proof.
  intros v. destruct (gsf_shape v) as [A [B [C D]]].
  cbv zeta in A, B, C, D.
  set (r := generate_safe_filename v) in *.
  unfold generate_safe_filename at 1. cbv zeta.
  assert (P : forall q : ascii -> bool, (forall c, safe_char c = true -> q c = true) ->
              all_chars q r = true).
  { intros q Hq. exact (all_chars_impl _ _ _ Hq A). }
  rewrite (remove_id "'" r) by (apply P; intros c Hc; apply safe_char_parts in Hc; tauto).
  rewrite (remove_id "," r) by (apply P; intros c Hc; apply safe_char_parts in Hc; tauto).
  rewrite (nfkd_ascii_id r) by (apply P; intros c Hc; apply safe_char_parts in Hc; tauto).
  rewrite (sub_runs_id is_sep false r) by (apply P; intros c Hc; apply safe_char_parts in Hc; tauto).
  rewrite (sub_runs_dash_id r false B) by discriminate.
  unfold strip_by. rewrite (lstrip_by_id _ _ C), (rstrip_by_id _ _ D).
  apply lower_id. apply P; intros c Hc; apply safe_char_parts in Hc; tauto.
Qed.

(* ================================================================= *)
(** ** Set lists *)

Import SetList.

Lemma mem_In : forall x l, mem x l = true <-> In x l.
Proof.
  intros x l. induction l as [|y r IH]; simpl; [split; [discriminate|tauto]|].
  rewrite orb_true_iff, IH, String.eqb_eq. split; intros [H|H]; auto.
Qed.

Lemma set_update_In : forall xs l x, In x (set_update l xs) <-> In x l \/ In x xs.
Proof.
  induction xs as [|y r IH]; intros l x; [simpl; tauto|].
  change (set_update l (y :: r)) with (set_update (set_add y l) r).
  rewrite IH. unfold set_add.
  destruct (mem y l) eqn:E.
  - apply mem_In in E. simpl. split; [tauto|]. intros [H|[->|H]]; auto.
  - rewrite in_app_iff. simpl. tauto.
Qed.

Lemma set_update_NoDup : forall xs l, NoDup l -> NoDup (set_update l xs).
Proof.
  induction xs as [|y r IH]; intros l Hl; [exact Hl|].
  change (set_update l (y :: r)) with (set_update (set_add y l) r). apply IH. unfold set_add. destruct (mem y l) eqn:E; [exact Hl|].
  apply NoDup_app; [exact Hl|constructor; [intros []|constructor]|].
  intros x Hx [<-|[]]. apply mem_In in Hx. congruence.
Qed.

(** [parse_set_list] never returns the same set code twice. *)
Theorem parse_set_list_NoDup : forall a, NoDup (parse_set_list a).
Proof.
  intros a. unfold parse_set_list. destruct (sets_falsy a); [constructor|].
  cbv zeta. destruct a as [|s|items|b]; try constructor.
  - apply set_update_NoDup. constructor.
  - assert (G : forall acc, NoDup acc -> NoDup (fold_left (fun result item =>
                     match item with
                     | ItemStr s => set_update result (pieces s)
                     | ItemOther => result
                     end) items acc)).
    { induction items as [|[s|] r IH]; intros acc Hacc; simpl; [exact Hacc| |].
      - apply IH, set_update_NoDup, Hacc.
      - apply IH, Hacc. }
    apply G. constructor.
Qed.


Lemma lower_char_props : forall c,
  Bool.eqb (isspace (lower_char c)) (isspace c)
  && Bool.eqb (no_comma (lower_char c)) (no_comma c)
  && Ascii.eqb (lower_char (lower_char c)) (lower_char c) = true.
Proof.
  intros [[] [] [] [] [] [] [] []]; vm_compute; reflexivity.
Qed.

Lemma lower_char_isspace : forall c, isspace (lower_char c) = isspace c.
Proof.
  intros c. pose proof (lower_char_props c) as H. rewrite !andb_true_iff in H.
  destruct H as [[H _] _]. apply Bool.eqb_prop, H.
Qed.

Lemma lower_char_no_comma : forall c, no_comma (lower_char c) = no_comma c.
Proof.
  intros c. pose proof (lower_char_props c) as H. rewrite !andb_true_iff in H.
  destruct H as [[_ H] _]. apply Bool.eqb_prop, H.
Qed.

Lemma lower_char_idem : forall c, lower_char (lower_char c) = lower_char c.
Proof.
  intros c. pose proof (lower_char_props c) as H. rewrite !andb_true_iff in H.
  destruct H as [_ H]. apply Ascii.eqb_eq, H.
Qed.

Lemma lower_idem : forall s, lower (lower s) = lower s.
Proof.
  induction s as [|c r IH]; [reflexivity|]. simpl. rewrite lower_char_idem, IH. reflexivity.
Qed.

Lemma lower_truthy : forall s, truthy (lower s) = truthy s.
Proof. intros [|c r]; reflexivity. Qed.

Lemma lower_all_chars : forall (p : ascii -> bool) s,
  (forall c, p (lower_char c) = p c) -> all_chars p (lower s) = all_chars p s.
Proof.
  intros p s H. induction s as [|c r IH]; [reflexivity|]. simpl. rewrite H, IH. reflexivity.
Qed.

Lemma lower_starts : forall s, starts_p isspace (lower s) = starts_p isspace s.
Proof. intros [|c r]; [reflexivity|]. apply lower_char_isspace. Qed.

Lemma lower_ends : forall s, ends_p isspace (lower s) = ends_p isspace s.
Proof.
  induction s as [|c r IH]; [reflexivity|].
  destruct r as [|d t]; [apply lower_char_isspace|]. exact IH.
Qed.

Lemma strip_normal : forall s,
  starts_p isspace (strip s) = false /\ ends_p isspace (strip s) = false.
Proof.
  intros s. unfold strip, strip_by. split.
  - apply rstrip_by_start, lstrip_by_start.
  - apply rstrip_by_end.
Qed.

Lemma strip_id : forall s,
  starts_p isspace s = false -> ends_p isspace s = false -> strip s = s.
Proof.
  intros s H1 H2. unfold strip, strip_by. rewrite (lstrip_by_id _ _ H1). apply rstrip_by_id, H2.
Qed.

Lemma strip_all_chars : forall p s, all_chars p s = true -> all_chars p (strip s) = true.
Proof. intros p s H. apply rstrip_by_chars, lstrip_by_chars, H. Qed.

Lemma split_all_chars : forall d s x,
  In x (split d s) -> all_chars (fun c => negb (Ascii.eqb c d)) x = true.
Proof.
  intros d s. induction s as [|c r IH]; intros x; simpl.
  - intros [<-|[]]. reflexivity.
  - destruct (Ascii.eqb c d) eqn:E.
    + intros [<-|H]; [reflexivity|apply IH, H].
    + destruct (split d r) as [|h t] eqn:Es.
      * intros [<-|[]]. simpl. rewrite E. reflexivity.
      * intros [<-|H]; [|apply IH; right; exact H].
        simpl. rewrite E. apply IH. left. reflexivity.
Qed.

Lemma pieces_normal : forall item x, In x (pieces item) -> set_code_normal x = true.
Proof.
  intros item x Hx. unfold pieces in Hx. apply in_map_iff in Hx as [p [<- Hp]].
  apply filter_In in Hp as [Hp Ht].
  destruct (strip_normal p) as [S1 S2].
  unfold set_code_normal. rewrite lower_truthy, Ht.
  rewrite (lower_all_chars no_comma _ lower_char_no_comma).
  assert (Hc : all_chars no_comma (strip p) = true)
    by (apply strip_all_chars; exact (split_all_chars _ _ _ Hp)).
  rewrite Hc.
  rewrite strip_id, lower_idem, String.eqb_refl; [reflexivity| |].
  - rewrite lower_starts. exact S1.
  - rewrite lower_ends. exact S2.
Qed.

(** Every set code [parse_set_list] returns is non-empty, has no comma,
    and is unchanged by [strip()] and [lower()]. *)
Theorem parse_set_list_normal : forall a x,
  In x (parse_set_list a) -> set_code_normal x = true.
Proof.
  intros a x. unfold parse_set_list. destruct (sets_falsy a); [intros []|].
  cbv zeta. destruct a as [|s|items|b]; try (intros []).
  - rewrite set_update_In. intros [[]|H]. apply (pieces_normal s), H.
  - assert (G : forall acc, (forall y, In y acc -> set_code_normal y = true) ->
                In x (fold_left (fun result item =>
                     match item with
                     | ItemStr s => set_update result (pieces s)
                     | ItemOther => result
                     end) items acc) -> set_code_normal x = true).
    { induction items as [|[s|] r IH]; intros acc Hacc; simpl; [apply Hacc| |].
      - apply IH. intros y. rewrite set_update_In. intros [H|H]; [apply Hacc, H|].
        apply (pieces_normal s), H.
      - apply IH, Hacc. }
    apply G. intros y [].
Qed.

(** [parse_set_list] on a comma separated string with spaces and capitals. *)
Lemma parse_set_list_normal_witness :
  In "lea" (parse_set_list (SetsStr " LEA, m10,,")) /\ set_code_normal "lea" = true.
Proof.
  split; [vm_compute; left; reflexivity|].
  apply (parse_set_list_normal (SetsStr " LEA, m10,,") "lea").
  vm_compute. left. reflexivity.
Defined.

Lemma split_no_sep : forall d x,
  all_chars (fun c => negb (Ascii.eqb c d)) x = true -> split d x = [x].
Proof.
  intros d x. induction x as [|c r IH]; [reflexivity|].
  simpl. intros H. apply andb_prop in H as [H1 H2].
  rewrite (IH H2). destruct (Ascii.eqb c d); [discriminate|reflexivity].
Qed.

Lemma split_app_sep : forall d x y,
  all_chars (fun c => negb (Ascii.eqb c d)) x = true ->
  split d (x ++ String d y) = x :: split d y.
Proof.
  intros d x y. induction x as [|c r IH]; simpl.
  - intros _. rewrite Ascii.eqb_refl. reflexivity.
  - intros H. apply andb_prop in H as [H1 H2].
    rewrite (IH H2). destruct (Ascii.eqb c d); [discriminate|reflexivity].
Qed.

Lemma split_join : forall d l, l <> [] ->
  Forall (fun x => all_chars (fun c => negb (Ascii.eqb c d)) x = true) l ->
  split d (join d l) = l.
Proof.
  intros d l. induction l as [|x r IH]; intros Hne Hl; [congruence|].
  inversion Hl as [|? ? Hx Hr]; subst.
  destruct r as [|y t].
  - apply split_no_sep, Hx.
  - change (join d (x :: y :: t)) with (x ++ String d (join d (y :: t))).
    rewrite (split_app_sep _ _ _ Hx), IH; [reflexivity|discriminate|exact Hr].
Qed.

Lemma pieces_of_normal : forall l,
  Forall (fun x => set_code_normal x = true) l ->
  map (fun s => lower (strip s)) (filter (fun s => truthy (strip s)) l) = l.
Proof.
  induction l as [|x r IH]; intros H; [reflexivity|].
  inversion H as [|? ? Hx Hr]; subst. unfold set_code_normal in Hx.
  rewrite !andb_true_iff in Hx. destruct Hx as [[[Ht _] Hs] Hlow].
  apply String.eqb_eq in Hs, Hlow.
  change (map (fun s => lower (strip s))
            (if truthy (strip x) then x :: filter (fun s => truthy (strip s)) r
             else filter (fun s => truthy (strip s)) r) = x :: r).
  rewrite Hs, Ht. change (lower (strip x) :: map (fun s => lower (strip s))
            (filter (fun s => truthy (strip s)) r) = x :: r).
  rewrite Hs, Hlow, (IH Hr). reflexivity.
Qed.

(** Joining normal set codes with commas and parsing the string gives back
    the same set. *)
Lemma parse_set_list_join : forall l,
  Forall (fun x => set_code_normal x = true) l ->
  forall x, In x (parse_set_list (SetsStr (join "," l))) <-> In x l.
Proof.
  intros l Hl x. destruct l as [|y t]; [simpl; tauto|].
  assert (Hy : set_code_normal y = true) by (inversion Hl; assumption).
  unfold set_code_normal in Hy. rewrite !andb_true_iff in Hy.
  destruct Hy as [[[Hty _] _] _].
  assert (Hf : sets_falsy (SetsStr (join "," (y :: t))) = false)
    by (destruct y; [discriminate|destruct t; reflexivity]).
  unfold parse_set_list. rewrite Hf. cbv beta iota zeta. rewrite set_update_In. unfold pieces.
  rewrite split_join, pieces_of_normal; [simpl; tauto|exact Hl|discriminate|].
  refine (Forall_impl _ _ Hl). intros z Hz. unfold set_code_normal in Hz.
  rewrite !andb_true_iff in Hz. destruct Hz as [[[_ Hz] _] _]. exact Hz.
Qed.

(** Two set codes joined with a comma. *)
Lemma parse_set_list_join_witness :
  Forall (fun x => set_code_normal x = true) ["lea"; "m10"] /\
  (forall x, In x (parse_set_list (SetsStr (join "," ["lea"; "m10"]))) <-> In x ["lea"; "m10"]).
Proof.
  assert (H : Forall (fun x => set_code_normal x = true) ["lea"; "m10"])
    by (repeat constructor).
  split; [exact H|]. exact (parse_set_list_join ["lea"; "m10"] H).
Defined.

(* ================================================================= *)
(** ** Card files, argument files, basic lands *)

Import CardFile ArgFile BasicLands.

Lemma take_digits_app : forall s d r, take_digits s = (d, r) -> s = d ++ r.
Proof.
  induction s as [|c t IH]; intros d r H; simpl in H.
  - injection H as <- <-. reflexivity.
  - destruct (isdigit c).
    + destruct (take_digits t) as [d' r'] eqn:E. injection H as <- <-.
      simpl. f_equal. apply IH. reflexivity.
    + injection H as <- <-. reflexivity.
Qed.

Lemma ends_p_app : forall p x y, y <> EmptyString -> ends_p p (x ++ y) = ends_p p y.
Proof.
  intros p x y Hy. induction x as [|c r IH]; [reflexivity|].
  simpl. rewrite IH. destruct (r ++ y) eqn:E; [|reflexivity].
  destruct r; simpl in E; [congruence|discriminate].
Qed.

Lemma lstrip_by_suffix : forall p s, exists pre, s = pre ++ lstrip_by p s.
Proof.
  intros p s. induction s as [|c r IH]; [exists EmptyString; reflexivity|].
  simpl. destruct (p c).
  - destruct IH as [pre Hpre]. exists (String c pre). simpl. rewrite <- Hpre. reflexivity.
  - exists EmptyString. reflexivity.
Qed.

Lemma lstrip_by_empty : forall p s,
  lstrip_by p s = EmptyString -> s = EmptyString \/ ends_p p s = true.
Proof.
  intros p s. induction s as [|c r IH]; [left; reflexivity|].
  simpl. destruct (p c) eqn:E; [|discriminate].
  intros H. right. destruct (IH H) as [->|H'].
  - reflexivity.
  - destruct r; [discriminate|exact H'].
Qed.

Lemma strip_strip : forall s, strip (strip s) = strip s.
Proof.
  intros s. destruct (strip_normal s) as [H1 H2]. apply strip_id; assumption.
Qed.

Lemma match_numbered_name : forall line g,
  ends_p isspace line = false -> match_numbered line = Some g ->
  truthy (strip g) = true.
Proof.
  intros line g Hend. unfold match_numbered.
  destruct (take_digits line) as [d rest] eqn:Ed.
  apply take_digits_app in Ed. subst line.
  destruct (truthy d); [|discriminate].
  destruct rest as [|c r0]; [discriminate|].
  destruct (isspace c) eqn:Ec; [|discriminate]. intros H. injection H as <-.
  change (truthy (strip (lstrip_by isspace (String c r0))) = true).
  destruct (lstrip_by_suffix isspace (String c r0)) as [pre Hpre].
  destruct (lstrip_by isspace (String c r0)) as [|h t] eqn:Eg.
  - destruct (lstrip_by_empty _ _ Eg) as [H|H]; [discriminate|].
    rewrite ends_p_app in Hend by discriminate. congruence.
  - rewrite strip_id; [reflexivity| |].
    + rewrite <- Eg. apply lstrip_by_start.
    + rewrite Hpre in Hend.
      rewrite (ends_p_app _ d) in Hend by (destruct pre; discriminate).
      rewrite ends_p_app in Hend by discriminate. exact Hend.
Qed.

Lemma parse_lines_normal : forall lines cat c,
  strip cat = cat -> lower cat = cat -> In c (parse_lines cat lines) ->
  truthy (name c) = true /\ strip (name c) = name c /\
  strip (category c) = category c /\ lower (category c) = category c.
Proof.
  induction lines as [|line rest IH]; intros cat c Hs Hl; [intros []|].
  simpl. destruct (truthy (strip line)) eqn:Ht; simpl; [|apply IH; assumption].
  destruct (starts_with_char "#" (strip line)).
  - destruct (strip_normal (lstrip_by (fun c => Ascii.eqb c "#") (strip line))) as [S1 S2].
    apply IH.
    + apply strip_id; [rewrite lower_starts; exact S1|rewrite lower_ends; exact S2].
    + apply lower_idem.
  - destruct (strip_normal line) as [_ Hend].
    destruct (match_numbered (strip line)) as [g|] eqn:Em.
    + intros [<-|H]; [|apply (IH cat); assumption].
      simpl. rewrite strip_strip, Hs, Hl. repeat split.
      apply (match_numbered_name _ _ Hend Em).
    + intros [<-|H]; [|apply (IH cat); assumption].
      simpl. rewrite strip_strip, Hs, Hl. repeat split. exact Ht.
Qed.

(** Every card [parse_card_file] returns has a non-empty name with no
    surrounding whitespace, and a category unchanged by [strip()] and
    [lower()]. *)
Lemma parse_card_file_normal : forall lines c,
  In c (parse_card_file lines) ->
  truthy (name c) = true /\ strip (name c) = name c /\
  strip (category c) = category c /\ lower (category c) = category c.
Proof.
  intros lines c. apply parse_lines_normal; reflexivity.
Qed.

(** A card file with a header and a numbered line. *)
Lemma parse_card_file_normal_witness :
  let c := mkCard "Llanowar Elves" "creatures" in
  In c (parse_card_file ["  # Creatures "; "4 Llanowar Elves "]) /\
  (truthy (name c) = true /\ strip (name c) = name c /\
   strip (category c) = category c /\ lower (category c) = category c).
Proof.
  cbv zeta. split; [vm_compute; left; reflexivity|].
  apply (parse_card_file_normal ["  # Creatures "; "4 Llanowar Elves "]).
  vm_compute. left. reflexivity.
Defined.

(** One card per line that is neither blank nor a ['#'] header, in the
    order of the lines; its name comes from its own line alone: the line
    stripped, less a leading count and the whitespace after it. *)
Lemma parse_card_file_lines : forall lines,
  map name (parse_card_file lines) =
  map (fun l => match match_numbered (strip l) with
                | Some g => strip g
                | None => strip l
                end)
      (filter (fun l => truthy (strip l) && negb (starts_with_char "#" (strip l))) lines).
Proof.
  intros lines. unfold parse_card_file. generalize "deck".
  induction lines as [|line rest IH]; intros cat; [reflexivity|].
  simpl. destruct (truthy (strip line)); simpl; [|apply IH].
  destruct (starts_with_char "#" (strip line)); simpl; [apply IH|].
  destruct (match_numbered (strip line)); simpl; f_equal; apply IH.
Qed.

Lemma before_no_sep : forall d s, contains d s = false -> before d s = s.
Proof.
  intros d s. induction s as [|c r IH]; [reflexivity|].
  simpl. destruct (Ascii.eqb c d); [discriminate|]. simpl. intros H. rewrite (IH H). reflexivity.
Qed.

Lemma before_no_contains : forall d s, contains d (before d s) = false.
Proof.
  intros d s. induction s as [|c r IH]; [reflexivity|].
  simpl. destruct (Ascii.eqb c d) eqn:E; [reflexivity|]. simpl. rewrite E, IH. reflexivity.
Qed.

Lemma convert_closed : forall l,
  convert_arg_line_to_args l =
  let p := strip (before "#" (strip l)) in if truthy p then [p] else [].
Proof.
  intros l. unfold convert_arg_line_to_args. cbv zeta.
  remember (strip l) as s eqn:Es.
  assert (Hss : strip s = s) by (rewrite Es; apply strip_strip).
  destruct (contains "#" s) eqn:Ecn.
  - destruct (truthy s) eqn:Ht.
    + destruct (starts_with_char "#" s) eqn:Est.
      * assert (Hb : before "#" s = EmptyString).
        { destruct s as [|c r]; [discriminate|].
          simpl in Est |- *. rewrite Est. reflexivity. }
        rewrite Hb. reflexivity.
      * simpl. destruct (truthy (strip (before "#" s))); reflexivity.
    + destruct s; [reflexivity|discriminate].
  - rewrite (before_no_sep _ _ Ecn), Hss.
    destruct (truthy s) eqn:Ht; [|reflexivity].
    assert (Est : starts_with_char "#" s = false).
    { destruct s as [|c r]; [reflexivity|].
      simpl in Ecn |- *. apply orb_false_iff in Ecn. apply Ecn. }
    rewrite Est. reflexivity.
Qed.

(** The early returns of [convert_arg_line_to_args] are one rule: the line
    up to its first ['#'], stripped, if that is not empty. *)
Theorem convert_arg_line_to_args_closed : forall l,
  convert_arg_line_to_args l =
  let p := strip (before "#" (strip l)) in if truthy p then [p] else [].
Proof. exact convert_closed. Qed.

Lemma strip_contains : forall d s, contains d s = false -> contains d (strip s) = false.
Proof.
  intros d s H.
  assert (G : forall t, contains d t = false <-> all_chars (fun c => negb (Ascii.eqb c d)) t = true).
  { induction t as [|c r IH]; [split; reflexivity|].
    simpl. rewrite orb_false_iff, andb_true_iff, IH, negb_true_iff. reflexivity. }
  apply G. apply strip_all_chars. apply G, H.
Qed.

(** The argument read from a line has no ['#'] and no surrounding
    whitespace, and reading it again as a line gives it back. *)
Lemma convert_arg_line_to_args_stable : forall l,
  Forall (fun a => contains "#" a = false /\ strip a = a) (convert_arg_line_to_args l) /\
  flat_map convert_arg_line_to_args (convert_arg_line_to_args l) = convert_arg_line_to_args l.
Proof.
  intros l. rewrite convert_closed. cbv zeta.
  set (p := strip (before "#" (strip l))).
  assert (Hc : contains "#" p = false) by apply strip_contains, before_no_contains.
  assert (Hs : strip p = p) by apply strip_strip.
  destruct (truthy p) eqn:Ht; [|split; [constructor|reflexivity]].
  split; [repeat constructor; assumption|].
  simpl. rewrite app_nil_r, convert_closed. cbv zeta.
  rewrite Hs, before_no_sep, Hs, Ht by exact Hc. reflexivity.
Qed.

Lemma split_basic_lands_fold : forall cards nb bl,
  NoDup bl ->
  let '(nb', bl') :=
    fold_left (fun '(non_basic, basic_lands) card =>
                 let card_name := card_name_of card in
                 if mem card_name BASIC_LANDS then (non_basic, set_add card_name basic_lands)
                 else (app non_basic [card], basic_lands)) cards (nb, bl) in
  nb' = app nb (filter (fun c => negb (mem (card_name_of c) BASIC_LANDS)) cards) /\
  NoDup bl' /\
  (forall b, In b bl' <-> In b bl \/
     (In b BASIC_LANDS /\ exists c, In c cards /\ card_name_of c = b)).
Proof.
  induction cards as [|c r IH]; intros nb bl Hbl.
  - cbn [fold_left filter]. rewrite app_nil_r. split; [reflexivity|split; [exact Hbl|]].
    intros b. split; [tauto|]. intros [H|[_ [c [[] _]]]]. exact H.
  - cbn [fold_left filter]. cbv zeta in IH |- *.
    destruct (mem (card_name_of c) BASIC_LANDS) eqn:Em.
    + assert (Hnd : NoDup (set_add (card_name_of c) bl))
        by exact (set_update_NoDup [card_name_of c] bl Hbl).
      specialize (IH nb _ Hnd).
      destruct (fold_left _ r _) as [nb' bl']. cbv beta iota in IH. destruct IH as [I1 [I2 I3]].
      split; [exact I1|split; [exact I2|]]. intros b. rewrite I3.
      pose proof (set_update_In [card_name_of c] bl b) as Hu.
      unfold set_update in Hu. simpl fold_left in Hu. rewrite Hu.
      apply mem_In in Em. cbn [In]. split.
      * intros [[H|[<-|[]]]|[H1 [c' [H2 H3]]]]; [tauto| |].
        -- right. split; [exact Em|]. exists c. split; [left|]; reflexivity.
        -- right. split; [exact H1|]. exists c'. split; [right|]; assumption.
      * intros [H|[H1 [c' [[<-|H2] H3]]]]; [tauto| |].
        -- left. right. left. exact H3.
        -- right. split; [exact H1|]. exists c'. split; assumption.
    + specialize (IH (app nb [c]) bl Hbl).
      destruct (fold_left _ r _) as [nb' bl']. cbv beta iota in IH. destruct IH as [I1 [I2 I3]].
      split; [rewrite I1, <- app_assoc; reflexivity|split; [exact I2|]].
      intros b. rewrite I3. split.
      * intros [H|[H1 [c' [H2 H3]]]]; [tauto|]. right. split; [exact H1|]. exists c'. split; [right|]; assumption.
      * intros [H|[H1 [c' [[<-|H2] H3]]]]; [tauto| |].
        -- apply mem_In in H1. subst b. congruence.
        -- right. split; [exact H1|]. exists c'. split; assumption.
Qed.

(** [split_basic_lands] keeps the other cards in order, and collects,
    without duplicates, exactly the names of [BASIC_LANDS] that occur. *)
Lemma split_basic_lands_spec : forall cards,
  fst (split_basic_lands cards) =
    filter (fun c => negb (mem (card_name_of c) BASIC_LANDS)) cards /\
  NoDup (snd (split_basic_lands cards)) /\
  (forall b, In b (snd (split_basic_lands cards)) <->
     In b BASIC_LANDS /\ exists c, In c cards /\ card_name_of c = b).
Proof.
  intros cards. unfold split_basic_lands.
  pose proof (split_basic_lands_fold cards [] [] (NoDup_nil _)) as H.
  destruct (fold_left _ cards _) as [nb' bl']. destruct H as [H1 [H2 H3]].
  split; [exact H1|split; [exact H2|]]. intros b. rewrite H3. simpl. tauto.
Qed.

(* ================================================================= *)
(** ** Relative times *)

Import TimeParse.

Lemma lower_app : forall a b, lower (a ++ b) = lower a ++ lower b.
Proof.
  induction a as [|c r IH]; intros b; [reflexivity|]. simpl. rewrite IH. reflexivity.
Qed.

Lemma lower_digits : forall d, all_chars isdigit d = true -> lower d = d.
Proof.
  intros d H. apply lower_id. refine (all_chars_impl _ _ _ _ H).
  intros c Hc. unfold isdigit, isupper in *.
  destruct (nat_of_ascii c) as [|n] eqn:E; [discriminate|].
  apply andb_prop in Hc as [H1 H2]. apply Nat.leb_le in H1, H2.
  repeat match goal with |- context [(?a <=? ?b)%nat] =>
    destruct (Nat.leb_spec a b); try lia end; reflexivity.
Qed.

Lemma take_digits_digits : forall d u t,
  all_chars isdigit d = true -> isdigit u = false ->
  take_digits (d ++ String u t) = (d, String u t).
Proof.
  induction d as [|c r IH]; intros u t Hd Hu; simpl.
  - rewrite Hu. reflexivity.
  - simpl in Hd. apply andb_prop in Hd as [H1 H2]. rewrite H1, (IH u t H2 Hu). reflexivity.
Qed.

Lemma int_of_digits_acc_nonneg : forall d acc,
  all_chars isdigit d = true -> (0 <= acc)%Z -> (0 <= int_of_digits_acc d acc)%Z.
Proof.
  induction d as [|c r IH]; intros acc Hd Ha; [exact Ha|].
  simpl in Hd. cbn [int_of_digits_acc]. apply andb_prop in Hd as [H1 H2]. apply IH; [exact H2|].
  unfold isdigit in H1. apply andb_prop in H1 as [H1 _]. apply Nat.leb_le in H1. lia.
Qed.

Lemma take_digits_all : forall s d r, take_digits s = (d, r) -> all_chars isdigit d = true.
Proof.
  induction s as [|c t IH]; intros d r H; simpl in H.
  - injection H as <- <-. reflexivity.
  - destruct (isdigit c) eqn:E.
    + destruct (take_digits t) as [d' r'] eqn:Et. injection H as <- <-.
      simpl. rewrite E. apply (IH d' r'). reflexivity.
    + injection H as <- <-. reflexivity.
Qed.

Lemma minus_delta_le : forall now delta t,
  (0 <= delta)%Z -> minus_delta now delta = TimeAt t -> t = (now - delta)%Z.
Proof.
  intros now delta t Hd. unfold minus_delta.
  destruct (_ >? _)%Z; [discriminate|]. cbv zeta.
  destruct (_ <? _)%Z; [discriminate|]. intros H. injection H as <-. reflexivity.
Qed.

Section RelativeTimes.

Variable strptime : string -> option Z.
Variable now : Z.
(** The format needs its ['-'] separators: without one, [strptime]
    raises [ValueError]. *)
Hypothesis strptime_needs_dash : forall s, contains "-" s = false -> strptime s = None.

(** A string without ['-'] never parses to a time later than now: it is
    now minus a whole number of minutes or hours. *)
Lemma parse_time_string_no_dash_past : forall s t,
  contains "-" s = false -> parse_time_string strptime now s = TimeAt t ->
  exists value, (0 <= value)%Z /\
    (t = (now - value * 60 * 1000000)%Z \/ t = (now - value * 3600 * 1000000)%Z).
Proof.
  intros s t Hs. unfold parse_time_string.
  destruct (negb (truthy s)); [discriminate|].
  rewrite (strptime_needs_dash s Hs).
  unfold match_relative. destruct (take_digits (lower s)) as [d r] eqn:Ed.
  pose proof (take_digits_all _ _ _ Ed) as Hdig.
  destruct (truthy d); [|discriminate].
  destruct r as [|u tail]; [discriminate|].
  destruct (_ && _); [|discriminate].
  intros Hm.
  pose proof (int_of_digits_acc_nonneg d 0 Hdig (Z.le_refl 0)) as Hv.
  exists (int_of_digits d). split; [exact Hv|].
  destruct (Ascii.eqb u "m").
  - left. apply minus_delta_le in Hm; [exact Hm|unfold int_of_digits in *; lia].
  - destruct (Ascii.eqb u "h"); [|discriminate].
    right. apply minus_delta_le in Hm; [exact Hm|unfold int_of_digits in *; lia].
Qed.

Lemma digits_no_dash : forall d, all_chars isdigit d = true -> contains "-" d = false.
Proof.
  induction d as [|c r IH]; intros H; [reflexivity|].
  simpl in H |- *. apply andb_prop in H as [H1 H2]. rewrite (IH H2), orb_false_r.
  destruct (Ascii.eqb c "-") eqn:E; [|reflexivity].
  apply Ascii.eqb_eq in E. subst c. discriminate.
Qed.

Lemma contains_app : forall d a b, contains d (a ++ b) = contains d a || contains d b.
Proof.
  induction a as [|c r IH]; intros b; [reflexivity|]. simpl. rewrite IH. apply orb_assoc.
Qed.

Lemma parse_relative_unit : forall d u tail,
  truthy d = true -> all_chars isdigit d = true ->
  In u ["m"; "M"; "h"; "H"]%char -> In tail [EmptyString; String "010" EmptyString] ->
  parse_time_string strptime now (d ++ String u tail) =
  if Ascii.eqb (lower_char u) "m" then minus_delta now (int_of_digits d * 60 * 1000000)
  else minus_delta now (int_of_digits d * 3600 * 1000000).
Proof.
  intros d u tail Ht Hd Hu Htl. unfold parse_time_string.
  assert (Ht' : truthy (d ++ String u tail) = true) by (destruct d; [discriminate|reflexivity]).
  rewrite Ht'. simpl negb. cbv iota.
  rewrite strptime_needs_dash.
  2:{ rewrite contains_app, digits_no_dash by exact Hd.
      destruct Hu as [<-|[<-|[<-|[<-|[]]]]]; destruct Htl as [<-|[<-|[]]]; reflexivity. }
  rewrite lower_app, lower_digits by exact Hd.
  unfold match_relative.
  assert (Hl : lower (String u tail) = String (lower_char u) tail /\
               (lower_char u = "m"%char \/ lower_char u = "h"%char)).
  { destruct Hu as [<-|[<-|[<-|[<-|[]]]]]; destruct Htl as [<-|[<-|[]]];
      (split; [reflexivity|first [left; reflexivity | right; reflexivity]]). }
  destruct Hl as [-> Hu'].
  rewrite take_digits_digits by (exact Hd || (destruct Hu' as [-> | ->]; reflexivity)).
  rewrite Ht.
  assert (Htail : (String.eqb tail EmptyString || String.eqb tail (String "010" EmptyString)) = true)
    by (destruct Htl as [<-|[<-|[]]]; reflexivity).
  rewrite Htail. destruct Hu' as [-> | ->]; reflexivity.
Qed.

(** [.lower()] makes the unit case-insensitive and [$] lets a final
    newline through: [5M], [5m] and [5m] with a newline give the same. *)
Lemma parse_time_string_relative_forms : forall d,
  truthy d = true -> all_chars isdigit d = true ->
  (parse_time_string strptime now (d ++ "M") = parse_time_string strptime now (d ++ "m") /\
   parse_time_string strptime now (d ++ String "m" (String "010" EmptyString))
     = parse_time_string strptime now (d ++ "m")) /\
  (parse_time_string strptime now (d ++ "H") = parse_time_string strptime now (d ++ "h") /\
   parse_time_string strptime now (d ++ String "h" (String "010" EmptyString))
     = parse_time_string strptime now (d ++ "h")) /\
  parse_time_string strptime now (d ++ "m") = minus_delta now (int_of_digits d * 60 * 1000000) /\
  parse_time_string strptime now (d ++ "h") = minus_delta now (int_of_digits d * 3600 * 1000000).
Proof.
  intros d Ht Hd.
  rewrite !parse_relative_unit by (assumption || (simpl; tauto)).
  repeat split; reflexivity.
Qed.

(** An amount that reaches back before year 1 is not reported as an
    invalid format: the subtraction raises [OverflowError]. *)
Lemma parse_time_string_overflow : forall d,
  truthy d = true -> all_chars isdigit d = true ->
  (now - int_of_digits d * 60 * 1000000 < datetime_min)%Z ->
  parse_time_string strptime now (d ++ "m") = TimeOverflow.
Proof.
  intros d Ht Hd Hlt.
  rewrite parse_relative_unit by (assumption || (simpl; tauto)).
  simpl Ascii.eqb. cbv iota. unfold minus_delta.
  destruct (_ >? _)%Z; [reflexivity|]. cbv zeta.
  apply Z.ltb_lt in Hlt. rewrite Hlt. reflexivity.
Qed.

End RelativeTimes.

(** ["5m"], with a [strptime] that never parses. *)
Lemma parse_time_string_no_dash_past_witness :
  let now := (1000000000 * 1000000)%Z in
  parse_time_string (fun _ => None) now "5m" = TimeAt (now - 300000000)%Z /\
  exists value, (0 <= value)%Z /\
    ((now - 300000000)%Z = (now - value * 60 * 1000000)%Z \/
     (now - 300000000)%Z = (now - value * 3600 * 1000000)%Z).
Proof.
  cbv zeta. split; [vm_compute; reflexivity|].
  apply (parse_time_string_no_dash_past (fun _ => None) (1000000000 * 1000000)%Z
           (fun _ _ => eq_refl) "5m"); [vm_compute; reflexivity|vm_compute; reflexivity].
Defined.

(** The amount ["15"], with a [strptime] that never parses. *)
Lemma parse_time_string_relative_forms_witness :
  let p := parse_time_string (fun _ => None) 0%Z in
  truthy "15" = true /\ all_chars isdigit "15" = true /\
  ((p ("15" ++ "M") = p ("15" ++ "m") /\
    p ("15" ++ String "m" (String "010" EmptyString)) = p ("15" ++ "m")) /\
   (p ("15" ++ "H") = p ("15" ++ "h") /\
    p ("15" ++ String "h" (String "010" EmptyString)) = p ("15" ++ "h")) /\
   p ("15" ++ "m") = minus_delta 0 (int_of_digits "15" * 60 * 1000000) /\
   p ("15" ++ "h") = minus_delta 0 (int_of_digits "15" * 3600 * 1000000)).
Proof.
  cbv zeta. split; [reflexivity|]. split; [reflexivity|].
  apply (parse_time_string_relative_forms (fun _ => None) 0%Z (fun _ _ => eq_refl) "15");
    reflexivity.
Defined.

(** Two thousand million minutes before the epoch. *)
Lemma parse_time_string_overflow_witness :
  (0 - int_of_digits "2000000000" * 60 * 1000000 < datetime_min)%Z /\
  parse_time_string (fun _ => None) 0%Z ("2000000000" ++ "m") = TimeOverflow.
Proof.
  split; [vm_compute; reflexivity|].
  apply (parse_time_string_overflow (fun _ => None) 0%Z (fun _ _ => eq_refl) "2000000000");
    vm_compute; reflexivity.
Defined.

(* ================================================================= *)
(** ** Scryfall art crops *)

Import ScryfallJson.

(** A top-level [image_uris.art_crop] decides the result: the card faces
    are not searched even when it is empty. *)
Lemma art_crop_top_level_decides : forall kv iu a,
  lookup "image_uris" kv = Some (JObj iu) -> lookup "art_crop" iu = Some a ->
  (json_truthy a = true -> exists t, get_scryfall_art_crop_url (Some kv) = ArtFound a t) /\
  (json_truthy a = false -> get_scryfall_art_crop_url (Some kv) = ArtNone).
Proof.
  intros kv iu a Hiu Ha.
  unfold get_scryfall_art_crop_url, has_art_crop. cbv zeta. simpl py_in.
  rewrite Hiu. simpl py_getitem. rewrite Hiu. cbn [py_getitem py_in]. rewrite Ha.
  split; intros Ht; rewrite Ht; [eexists; reflexivity|reflexivity].
Qed.

(** A response with a top-level [image_uris] and two faces. *)
Lemma art_crop_top_level_decides_witness :
  let iu := [("art_crop", JStr "https://x/a.jpg")] in
  let kv := [("image_uris", JObj iu); ("type_line", JStr "Land");
             ("card_faces", JArr [JObj [("image_uris", JObj [("art_crop", JStr "https://x/b.jpg")])]])] in
  lookup "image_uris" kv = Some (JObj iu) /\
  lookup "art_crop" iu = Some (JStr "https://x/a.jpg") /\
  exists t, get_scryfall_art_crop_url (Some kv) = ArtFound (JStr "https://x/a.jpg") t.
Proof.
  cbv zeta. split; [reflexivity|]. split; [reflexivity|].
  apply (art_crop_top_level_decides
           [("image_uris", JObj [("art_crop", JStr "https://x/a.jpg")]); ("type_line", JStr "Land");
            ("card_faces", JArr [JObj [("image_uris", JObj [("art_crop", JStr "https://x/b.jpg")])]])]
           [("art_crop", JStr "https://x/a.jpg")] (JStr "https://x/a.jpg")); reflexivity.
Defined.

Lemma scan_faces_skip : forall pre rest acc,
  Forall (fun g => has_art_crop g = Some false) pre ->
  scan_faces (app pre rest) acc = scan_faces rest acc.
Proof.
  induction pre as [|g r IH]; intros rest acc H; [reflexivity|].
  inversion H as [|? ? Hg Hr]; subst. simpl. rewrite Hg. apply IH, Hr.
Qed.

(** Without a top-level [image_uris], the first face that has an
    [art_crop] decides: a later face is not used even when that one is
    empty. *)
Lemma art_crop_first_face_decides : forall kv pre f post iu a,
  lookup "image_uris" kv = None ->
  lookup "card_faces" kv = Some (JArr (app pre (f :: post))) ->
  Forall (fun g => has_art_crop g = Some false) pre ->
  py_getitem f "image_uris" = Some (JObj iu) -> lookup "art_crop" iu = Some a ->
  (json_truthy a = true -> exists t, get_scryfall_art_crop_url (Some kv) = ArtFound a t) /\
  (json_truthy a = false -> get_scryfall_art_crop_url (Some kv) = ArtNone).
Proof.
  intros kv pre f post iu a Hiu Hf Hpre Hfi Ha.
  unfold get_scryfall_art_crop_url. cbv zeta.
  assert (Htop : has_art_crop (JObj kv) = Some false)
    by (unfold has_art_crop; simpl py_in; rewrite Hiu; reflexivity).
  rewrite Htop, Hf.
  assert (Htr : json_truthy (JArr (app pre (f :: post))) = true) by (destruct pre; reflexivity).
  rewrite Htr. simpl py_iter. cbv beta iota. rewrite scan_faces_skip by exact Hpre.
  destruct f as [| | | |l|fkv]; try discriminate. simpl in Hfi.
  simpl scan_faces. unfold has_art_crop. simpl py_in. rewrite Hfi.
  simpl py_getitem. rewrite Hfi. cbn [py_getitem py_in]. rewrite Ha.
  split; intros Ht; rewrite Ht; [eexists; reflexivity|reflexivity].
Qed.

(** A first face without [image_uris], then a face with an empty
    [art_crop], then one with a URL. *)
Lemma art_crop_first_face_decides_witness :
  let g := JObj [("name", JStr "A")] in
  let iu := [("art_crop", JStr EmptyString)] in
  let f := JObj [("image_uris", JObj iu)] in
  let h := JObj [("image_uris", JObj [("art_crop", JStr "https://x/b.jpg")])] in
  let kv := [("card_faces", JArr (app [g] (f :: [h])))] in
  lookup "image_uris" kv = None /\
  Forall (fun g => has_art_crop g = Some false) [g] /\
  get_scryfall_art_crop_url (Some kv) = ArtNone.
Proof.
  cbv zeta. split; [reflexivity|]. split; [repeat constructor|].
  apply (proj2 (art_crop_first_face_decides
    [("card_faces", JArr (app [JObj [("name", JStr "A")]]
        (JObj [("image_uris", JObj [("art_crop", JStr EmptyString)])]
         :: [JObj [("image_uris", JObj [("art_crop", JStr "https://x/b.jpg")])]])))]
    [JObj [("name", JStr "A")]]
    (JObj [("image_uris", JObj [("art_crop", JStr EmptyString)])])
    [JObj [("image_uris", JObj [("art_crop", JStr "https://x/b.jpg")])]]
    [("art_crop", JStr EmptyString)] (JStr EmptyString)
    eq_refl eq_refl (Forall_cons (JObj [("name", JStr "A")]) (eq_refl : has_art_crop (JObj [("name", JStr "A")]) = Some false) (Forall_nil _)) eq_refl eq_refl)).
  reflexivity.
Defined.

(* ================================================================= *)
(** ** Scryfall mode *)

Import ScryfallMode.

Lemma last_in : forall {A} (l : list A) d, l <> [] -> In (last l d) l.
Proof.
  intros A l d. induction l as [|x r IH]; [congruence|].
  intros _. destruct r as [|y t]; [left; reflexivity|].
  right. apply IH. discriminate.
Qed.

Lemma find_cc_print_in : forall ss sc cc p,
  find_cc_print ss sc cc = Some (Some p) -> In p cc.
Proof.
  intros ss sc cc p. induction cc as [|q r IH]; [discriminate|].
  simpl. destruct (set_name q); [|discriminate].
  destruct (String.eqb _ _).
  - destruct (collector_number q); [|discriminate].
    destruct (String.eqb _ _).
    + intros H. injection H as ->. left. reflexivity.
    + intros H. right. apply IH, H.
  - intros H. right. apply IH, H.
Qed.

Lemma match_results_in : forall rs cc m,
  match_results rs cc = Some m -> incl m cc.
Proof.
  induction rs as [|sr r IH]; intros cc m H.
  - injection H as <-. intros x [].
  - simpl in H.
    destruct (match sr_set sr, sr_cn sr with
              | Some scryfall_set, Some scryfall_cn =>
                  if truthy scryfall_set && truthy scryfall_cn
                  then find_cc_print scryfall_set scryfall_cn cc
                  else Some None
              | _, _ => Some None
              end) as [found|] eqn:Eh; [|discriminate].
    destruct (match_results r cc) as [matched|] eqn:Er; [|discriminate].
    injection H as <-. pose proof (IH cc matched Er) as Hm.
    destruct found as [p|]; [|exact Hm].
    intros x [<-|Hx]; [|apply Hm, Hx].
    destruct (sr_set sr), (sr_cn sr); try discriminate.
    destruct (truthy s && truthy s0); [|discriminate].
    apply (find_cc_print_in _ _ _ _ Eh).
Qed.

Lemma select_prints_in : forall rnd cands strategy p,
  In p (select_prints_from_candidate rnd cands strategy) -> In p cands.
Proof.
  intros rnd [|q r] strategy p; [intros []|]. unfold select_prints_from_candidate.
  destruct (String.eqb strategy "all"); [tauto|].
  destruct (String.eqb strategy "latest"); [intros [<-|[]]; left; reflexivity|].
  destruct (String.eqb strategy "earliest").
  - intros [<-|[]]. apply last_in. discriminate.
  - destruct (String.eqb strategy "random"); [|intros []].
    intros [<-|[]]. apply nth_In. simpl length. apply Nat.mod_upper_bound. discriminate.
Qed.

(** Scryfall mode only ever captures prints of the Card Conjurer list. *)
Lemma scryfall_mode_prints_from_cc : forall search_cards rnd card_name all_cc_prints
    include_sets exclude_sets set_selection_strategy no_match_selection qs l p,
  scryfall_mode search_cards rnd card_name all_cc_prints include_sets exclude_sets
    set_selection_strategy no_match_selection = (qs, ScryPrints l) ->
  In p l -> In p all_cc_prints.
Proof.
  intros search_cards rnd card_name all_cc_prints include_sets exclude_sets sss nms qs l p.
  unfold scryfall_mode. cbv zeta.
  assert (G : forall qs0 results strategy,
    match match_results results all_cc_prints with
    | None => (qs0, ScryAttributeError)
    | Some [] =>
        if String.eqb nms "skip" then (qs0, ScrySkip)
        else (qs0, ScryPrints (select_prints_from_candidate rnd all_cc_prints nms))
    | Some ((m0 :: _) as matched_prints) =>
        (qs0, ScryPrints
           (if String.eqb strategy "latest" then [last matched_prints m0]
            else if String.eqb strategy "earliest" then [m0]
            else if String.eqb strategy "random"
            then [nth (Nat.modulo rnd (length matched_prints)) matched_prints m0]
            else matched_prints))
    end = (qs, ScryPrints l) -> In p l -> In p all_cc_prints).
  { intros qs0 results strategy.
    destruct (match_results results all_cc_prints) as [[|m0 mr]|] eqn:Em; try discriminate.
    - destruct (String.eqb nms "skip"); [discriminate|].
      intros H. injection H as _ <-. apply select_prints_in.
    - apply match_results_in in Em.
      intros H. injection H as _ <-.
      destruct (String.eqb strategy "latest").
      + intros [<-|[]]. exact (Em _ (last_in (m0 :: mr) m0 ltac:(discriminate))).
      + destruct (String.eqb strategy "earliest"); [intros [<-|[]]; apply Em; left; reflexivity|].
        destruct (String.eqb strategy "random").
        * intros [<-|[]].
          exact (Em _ (nth_In (m0 :: mr) m0
                         (Nat.mod_upper_bound rnd (length (m0 :: mr)) ltac:(discriminate)))).
        * intros Hp. apply Em, Hp. }
  destruct (search_cards _) as [|r0 rs] eqn:E1.
  - destruct (String.eqb nms "skip"); [discriminate|].
    destruct (search_cards (fallback_query card_name nms)) as [|r1 rs1]; [discriminate|].
    apply G.
  - apply G.
Qed.

(** One Scryfall result matching the only Card Conjurer print. *)
Lemma scryfall_mode_prints_from_cc_witness :
  let p := mkPrint "0" "Island (LEA) #1" (Some "LEA") (Some "1") in
  let sc := fun _ : string => [mkResult (Some "lea") (Some "1")] in
  let r := scryfall_mode sc 0 "Island" [p] [] [] "all" "skip" in
  r = (fst r, ScryPrints [p]) /\ In p [p].
Proof.
  cbv zeta. split; [vm_compute; reflexivity|].
  apply (scryfall_mode_prints_from_cc (fun _ => [mkResult (Some "lea") (Some "1")]) 0 "Island"
           [mkPrint "0" "Island (LEA) #1" (Some "LEA") (Some "1")] [] [] "all" "skip"
           (fst (scryfall_mode (fun _ => [mkResult (Some "lea") (Some "1")]) 0 "Island"
                   [mkPrint "0" "Island (LEA) #1" (Some "LEA") (Some "1")] [] [] "all" "skip"))
           [mkPrint "0" "Island (LEA) #1" (Some "LEA") (Some "1")]);
    [vm_compute; reflexivity|left; reflexivity].
Defined.

Lemma match_results_attribute_error : forall results p0 rest sr,
  set_name p0 = None -> In sr results ->
  opt_truthy (sr_set sr) = true -> opt_truthy (sr_cn sr) = true ->
  match_results results (p0 :: rest) = None.
Proof.
  induction results as [|sr' r IH]; intros p0 rest sr Hp0 Hin Hs Hc; [destruct Hin|].
  simpl. destruct Hin as [<-|Hin].
  - destruct (sr_set sr') as [s|], (sr_cn sr') as [c|]; try discriminate.
    simpl in Hs, Hc. rewrite Hs, Hc. simpl. rewrite Hp0. reflexivity.
  - rewrite (IH p0 rest sr Hp0 Hin Hs Hc).
    destruct (sr_set sr') as [s|], (sr_cn sr') as [c|]; try reflexivity.
    destruct (truthy s && truthy c); [|reflexivity]. simpl. rewrite Hp0. reflexivity.
Qed.

(** A first Card Conjurer print without set information ([set_name] is
    [None]) makes the matching loop raise [AttributeError] as soon as the
    query returns any result with a set and a collector number. *)
Lemma scryfall_mode_attribute_error : forall search_cards rnd card_name p0 rest
    include_sets exclude_sets set_selection_strategy no_match_selection sr,
  set_name p0 = None ->
  In sr (search_cards (full_query card_name include_sets exclude_sets)) ->
  opt_truthy (sr_set sr) = true -> opt_truthy (sr_cn sr) = true ->
  snd (scryfall_mode search_cards rnd card_name (p0 :: rest) include_sets exclude_sets
         set_selection_strategy no_match_selection) = ScryAttributeError.
Proof.
  intros search_cards rnd card_name p0 rest inc exc sss nms sr Hp0 Hin Hs Hc.
  unfold scryfall_mode. cbv zeta.
  pose proof (match_results_attribute_error _ p0 rest sr Hp0 Hin Hs Hc) as Hm.
  destruct (search_cards (full_query card_name inc exc)) as [|r0 rs]; [destruct Hin|].
  cbv beta iota. rewrite Hm. reflexivity.
Qed.

(** A first Card Conjurer print with no set, and one Scryfall result. *)
Lemma scryfall_mode_attribute_error_witness :
  let sc := fun _ : string => [mkResult (Some "lea") (Some "1")] in
  snd (scryfall_mode sc 0 "Island"
         [mkPrint "0" "Island" None None; mkPrint "1" "Island (LEA) #1" (Some "LEA") (Some "1")]
         [] [] "all" "skip") = ScryAttributeError.
Proof.
  cbv zeta.
  apply (scryfall_mode_attribute_error _ _ _ _ _ _ _ _ _ (mkResult (Some "lea") (Some "1")));
    [reflexivity|left; reflexivity|reflexivity|reflexivity].
Defined.

(** Once the filtered query finds nothing, the set filters play no further
    part: the retry and the result are the same for any include and
    exclude lists. *)
Lemma scryfall_mode_fallback_ignores_sets : forall search_cards rnd card_name all_cc_prints
    inc1 exc1 inc2 exc2 set_selection_strategy no_match_selection,
  search_cards (full_query card_name inc1 exc1) = [] ->
  search_cards (full_query card_name inc2 exc2) = [] ->
  tl (fst (scryfall_mode search_cards rnd card_name all_cc_prints inc1 exc1
             set_selection_strategy no_match_selection)) =
  tl (fst (scryfall_mode search_cards rnd card_name all_cc_prints inc2 exc2
             set_selection_strategy no_match_selection)) /\
  snd (scryfall_mode search_cards rnd card_name all_cc_prints inc1 exc1
         set_selection_strategy no_match_selection) =
  snd (scryfall_mode search_cards rnd card_name all_cc_prints inc2 exc2
         set_selection_strategy no_match_selection).
Proof.
  intros search_cards rnd card_name all_cc_prints inc1 exc1 inc2 exc2 sss nms H1 H2.
  unfold scryfall_mode. cbv zeta. rewrite H1, H2.
  destruct (String.eqb nms "skip"); [split; reflexivity|].
  destruct (search_cards (fallback_query card_name nms)); [split; reflexivity|].
  cbv beta iota.
  destruct (match_results _ all_cc_prints) as [[|m0 mr]|]; [|split; reflexivity..].
  destruct (String.eqb nms "skip"); split; reflexivity.
Qed.

(** A search that only answers the fallback query. *)
Lemma scryfall_mode_fallback_ignores_sets_witness :
  let sc := fun q : string =>
    if String.eqb q (fallback_query "Island" "latest")
    then [mkResult (Some "lea") (Some "1")] else [] in
  let cc := [mkPrint "0" "Island (LEA) #1" (Some "LEA") (Some "1")] in
  sc (full_query "Island" ["m10"] []) = [] /\ sc (full_query "Island" [] ["lea"]) = [] /\
  snd (scryfall_mode sc 0 "Island" cc ["m10"] [] "all" "latest") =
  snd (scryfall_mode sc 0 "Island" cc [] ["lea"] "all" "latest").
Proof.
  cbv zeta. split; [vm_compute; reflexivity|]. split; [vm_compute; reflexivity|].
  apply (scryfall_mode_fallback_ignores_sets _ _ _ _ ["m10"] [] [] ["lea"]);
    vm_compute; reflexivity.
Defined.

(* ================================================================= *)
(** ** Local paths of the upscaler *)

Import Paths.

Lemma parts_good : forall s x, In x (parts (path_of s)) -> good_part x = true.
Proof.
  intros s x H. simpl in H. apply filter_In in H as [Hs Hx].
  unfold good_part. rewrite Hx. exact (split_all_chars "/" s x Hs).
Qed.

Lemma root_nonslash : forall c r, is_slash c = false -> root (path_of (String c r)) = EmptyString.
Proof.
  intros [[] [] [] [] [] [] [] []] r H; try reflexivity; discriminate.
Qed.

Lemma root_slash1 : forall c r, is_slash c = false ->
  root (path_of (String "/" (String c r))) = "/".
Proof.
  intros [[] [] [] [] [] [] [] []] r H; try reflexivity; discriminate.
Qed.

Lemma root_slash2 : forall c r, is_slash c = false ->
  root (path_of (String "/" (String "/" (String c r)))) = "//".
Proof.
  intros [[] [] [] [] [] [] [] []] r H; try reflexivity; discriminate.
Qed.

Lemma root_cases : forall s,
  root (path_of s) = EmptyString \/ root (path_of s) = "/" \/ root (path_of s) = "//".
Proof.
  intros s. destruct s as [|c r]; [left; reflexivity|].
  destruct (is_slash c) eqn:E; [|left; apply root_nonslash, E].
  apply Ascii.eqb_eq in E. subst c. destruct r as [|c r]; [right; left; reflexivity|].
  destruct (is_slash c) eqn:E; [|right; left; apply root_slash1, E].
  apply Ascii.eqb_eq in E. subst c. destruct r as [|c r]; [right; right; reflexivity|].
  destruct (is_slash c) eqn:E; [|right; right; apply root_slash2, E].
  apply Ascii.eqb_eq in E. subst c. right; left; reflexivity.
Qed.

Lemma root_empty_iff : forall s,
  root (path_of s) = EmptyString <-> starts_with_char "/" s = false.
Proof.
  intros s. destruct s as [|c r]; [split; reflexivity|].
  simpl starts_with_char. destruct (Ascii.eqb c "/") eqn:E.
  - apply Ascii.eqb_eq in E. subst c. split; [|discriminate].
    destruct r as [|c r]; [discriminate|].
    destruct (is_slash c) eqn:E; [|rewrite root_slash1 by exact E; discriminate].
    apply Ascii.eqb_eq in E. subst c. destruct r as [|c r]; [discriminate|].
    destruct (is_slash c) eqn:E; [|rewrite root_slash2 by exact E; discriminate].
    apply Ascii.eqb_eq in E. subst c. discriminate.
  - split; [reflexivity|]. intros _. apply root_nonslash, E.
Qed.

Lemma good_parts_filter : forall L,
  Forall (fun x => good_part x = true) L ->
  filter (fun part => truthy part && negb (String.eqb part ".")) L = L.
Proof.
  induction L as [|x r IH]; intros H; [reflexivity|].
  inversion H as [|? ? Hx Hr]; subst. unfold good_part in Hx.
  apply andb_prop in Hx as [Hx _]. simpl. rewrite Hx, (IH Hr). reflexivity.
Qed.

Lemma good_no_slash : forall L,
  Forall (fun x => good_part x = true) L ->
  Forall (fun x => all_chars (fun c => negb (Ascii.eqb c "/")) x = true) L.
Proof.
  intros L H. refine (Forall_impl _ _ H). intros x Hx.
  unfold good_part in Hx. apply andb_prop in Hx as [_ Hx]. exact Hx.
Qed.

Lemma path_of_join_rel : forall L, L <> [] -> Forall (fun x => good_part x = true) L ->
  path_of (join "/" L) = mkPath EmptyString L.
Proof.
  intros L Hne HL. destruct L as [|x t]; [congruence|].
  inversion HL as [|? ? Hx Ht]; subst.
  assert (Hr : root (path_of (join "/" (x :: t))) = EmptyString).
  { destruct x as [|c r]; [discriminate|].
    unfold good_part in Hx. simpl in Hx. apply andb_prop in Hx as [_ Hx].
    apply andb_prop in Hx as [Hc _].
    destruct t; [apply root_nonslash; destruct (is_slash c); [discriminate|reflexivity]|].
    apply root_nonslash. destruct (is_slash c); [discriminate|reflexivity]. }
  assert (Hp : parts (path_of (join "/" (x :: t))) = x :: t).
  { change (parts (path_of (join "/" (x :: t)))) with
      (filter (fun part => truthy part && negb (String.eqb part ".")) (split "/" (join "/" (x :: t)))).
    rewrite split_join by (discriminate || exact (good_no_slash _ HL)).
    apply good_parts_filter, HL. }
  destruct (path_of (join "/" (x :: t))) as [r0 ps]. simpl in Hr, Hp. subst. reflexivity.
Qed.

Lemma split_cons_sep : forall d s, split d (String d s) = EmptyString :: split d s.
Proof. intros d s. simpl. rewrite Ascii.eqb_refl. reflexivity. Qed.

Lemma filter_parts_empty : forall L,
  filter (fun part => truthy part && negb (String.eqb part ".")) (EmptyString :: L) =
  filter (fun part => truthy part && negb (String.eqb part ".")) L.
Proof. reflexivity. Qed.

Lemma path_of_join_abs : forall r L, (r = "/" \/ r = "//") -> L <> [] ->
  Forall (fun x => good_part x = true) L ->
  path_of (r ++ join "/" L) = mkPath r L.
Proof.
  intros r L Hr Hne HL. destruct L as [|x t]; [congruence|].
  inversion HL as [|? ? Hx Ht]; subst.
  destruct x as [|c x0]; [discriminate|].
  assert (Hc : is_slash c = false).
  { unfold good_part in Hx. simpl in Hx. apply andb_prop in Hx as [_ Hx].
    apply andb_prop in Hx as [Hc _]. destruct (is_slash c); [discriminate|reflexivity]. }
  assert (Hj : exists tl, join "/" (String c x0 :: t) = String c tl)
    by (destruct t; eexists; reflexivity).
  destruct Hj as [tl Hj].
  assert (Hroot : root (path_of (r ++ join "/" (String c x0 :: t))) = r).
  { rewrite Hj. destruct Hr as [-> | ->]; [apply root_slash1, Hc|apply root_slash2, Hc]. }
  assert (Hp : parts (path_of (r ++ join "/" (String c x0 :: t))) = String c x0 :: t).
  { change (parts (path_of (r ++ join "/" (String c x0 :: t)))) with
      (filter (fun part => truthy part && negb (String.eqb part "."))
         (split "/" (r ++ join "/" (String c x0 :: t)))).
    set (J := join "/" (String c x0 :: t)).
    destruct Hr as [-> | ->];
      [change ("/" ++ J) with (String "/" J)|change ("//" ++ J) with (String "/" (String "/" J))];
      rewrite ?split_cons_sep, ?filter_parts_empty; unfold J;
      rewrite split_join by (discriminate || exact (good_no_slash _ HL));
      apply good_parts_filter, HL. }
  destruct (path_of (r ++ join "/" (String c x0 :: t))) as [r0 ps].
  simpl in Hroot, Hp. subst. reflexivity.
Qed.

Lemma str_app_assoc : forall a b c : string, (a ++ b) ++ c = a ++ (b ++ c).
Proof.
  induction a as [|x r IH]; intros b c; [reflexivity|]. simpl. rewrite IH. reflexivity.
Qed.

Lemma join_app_ne : forall L1 L2, L1 <> [] -> L2 <> [] ->
  join "/" (app L1 L2) = join "/" L1 ++ "/" ++ join "/" L2.
Proof.
  induction L1 as [|x r IH]; intros L2 H1 H2; [congruence|].
  destruct r as [|y t].
  - destruct L2; [congruence|]. reflexivity.
  - specialize (IH L2 ltac:(discriminate) H2). cbn [app] in IH |- *.
    change (join "/" (x :: y :: app t L2)) with (x ++ String "/" (join "/" (y :: app t L2))).
    rewrite IH.
    change (join "/" (x :: y :: t)) with (x ++ String "/" (join "/" (y :: t))).
    rewrite str_app_assoc. reflexivity.
Qed.

Lemma path_str_rel : forall X, X <> [] -> path_str (mkPath EmptyString X) = join "/" X.
Proof. intros [|x r] H; [congruence|reflexivity]. Qed.

Lemma path_of_part : forall x, good_part x = true -> path_of x = mkPath EmptyString [x].
Proof.
  intros x Hx. apply (path_of_join_rel [x]); [discriminate|repeat constructor; exact Hx].
Qed.

Lemma lstrip_by_head : forall p s c r, lstrip_by p s = String c r -> p c = false.
Proof.
  intros p s. induction s as [|d t IH]; intros c r; [discriminate|].
  simpl. destruct (p d) eqn:E; [apply IH|]. intros H. injection H as <- _. exact E.
Qed.

Lemma strip_slash_root : forall s, root (path_of (strip_by is_slash s)) = EmptyString.
Proof.
  intros s. unfold strip_by.
  destruct (rstrip_by is_slash (lstrip_by is_slash s)) as [|c r] eqn:E; [reflexivity|].
  apply root_nonslash. destruct (rstrip_by_head _ _ _ _ E) as [r0 E0].
  exact (lstrip_by_head _ _ _ _ E0).
Qed.

Lemma local_asset_path_shape : forall dd art f, good_part f = true ->
  exists L, L <> [] /\ Forall (fun x => good_part x = true) L /\
  path_div (path_div (path_div (path_of dd) (strip_by is_slash art)) "original") f
    = mkPath (root (path_of dd)) (app (parts (path_of dd)) L).
Proof.
  intros dd art f Hf.
  exists (app (parts (path_of (strip_by is_slash art))) ["original"; f]).
  split; [destruct (parts _); discriminate|].
  split.
  - apply Forall_app. split.
    + apply Forall_forall. intros x Hx. apply (parts_good _ _ Hx).
    + repeat constructor. exact Hf.
  - unfold path_div at 3. rewrite strip_slash_root. simpl truthy. cbv iota.
    unfold path_div at 2. cbv zeta. replace (path_of "original") with (mkPath EmptyString ["original"])
      by reflexivity. simpl truthy. cbv iota.
    unfold path_div. rewrite (path_of_part f Hf). simpl. rewrite <- !app_assoc. reflexivity.
Qed.

(** With a relative [download_dir] that has a component, the upscaler opens
    [download_dir] joined to the saved path, which already starts with
    [download_dir]: ['out/art/original/f.png'] is read as
    ['out/out/art/original/f.png']. *)
Lemma upscaler_reads_doubled_path : forall dd art f sp,
  starts_with_char "/" dd = false -> parts (path_of dd) <> [] ->
  good_part f = true -> strip_by is_slash sp = EmptyString ->
  upscaler_local_path dd sp (local_asset_path dd art "original" f) =
  Some (path_str (path_of dd) ++ "/" ++ local_asset_path dd art "original" f).
Proof.
  intros dd art f sp Hdd Hne Hf Hsp.
  apply root_empty_iff in Hdd.
  assert (Htd : truthy dd = true) by (destruct dd; [destruct Hne; reflexivity|reflexivity]).
  assert (Hds : Forall (fun x => good_part x = true) (parts (path_of dd)))
    by (apply Forall_forall; intros x Hx; apply (parts_good dd x Hx)).
  destruct (local_asset_path_shape dd art f Hf) as [L [HL [HgL Hp]]].
  unfold local_asset_path, upscaler_local_path. rewrite Hp, Htd, Hsp.
  destruct (path_of dd) as [rd ds]. simpl in Hdd, Hne, Hds. subst rd. cbn [root parts].
  assert (Hne' : app ds L <> []) by (destruct ds; [congruence|discriminate]).
  rewrite (path_str_rel (app ds L) Hne'), (path_str_rel ds Hne).
  replace (prefix "" (join "/" (app ds L))) with true by (destruct (join "/" (app ds L)); reflexivity).
  change (true && true) with true. cbv beta iota.
  unfold path_div. rewrite path_of_join_rel by (exact Hne' || (apply Forall_app; split; assumption)).
  cbv zeta. cbn [root parts truthy]. cbv beta iota.
  rewrite path_str_rel by (destruct ds; [congruence|discriminate]).
  rewrite join_app_ne by assumption. reflexivity.
Qed.

(** [--output-dir out] with the default empty [image_server_path]. *)
Lemma upscaler_reads_doubled_path_witness :
  local_asset_path "out" "/art/" "original" "f.png" = "out/art/original/f.png" /\
  upscaler_local_path "out" EmptyString (local_asset_path "out" "/art/" "original" "f.png")
    = Some "out/out/art/original/f.png".
Proof.
  split; [vm_compute; reflexivity|].
  rewrite (upscaler_reads_doubled_path "out" "/art/" "f.png" EmptyString);
    [vm_compute; reflexivity|reflexivity|vm_compute; discriminate|reflexivity|reflexivity].
Defined.

(** With an absolute [download_dir], or one without a component such as
    the default ['.'], the upscaler opens the saved file. *)
Lemma upscaler_reads_saved_path : forall dd art f sp,
  truthy dd = true ->
  starts_with_char "/" dd = true \/ parts (path_of dd) = [] ->
  good_part f = true -> strip_by is_slash sp = EmptyString ->
  upscaler_local_path dd sp (local_asset_path dd art "original" f) =
  Some (local_asset_path dd art "original" f).
Proof.
  intros dd art f sp Htd Hcase Hf Hsp.
  assert (Hds : Forall (fun x => good_part x = true) (parts (path_of dd)))
    by (apply Forall_forall; intros x Hx; apply (parts_good dd x Hx)).
  pose proof (root_empty_iff dd) as Hiff.
  pose proof (root_cases dd) as Hroot.
  destruct (local_asset_path_shape dd art f Hf) as [L [HL [HgL Hp]]].
  unfold local_asset_path, upscaler_local_path. rewrite Hp, Htd, Hsp.
  destruct (path_of dd) as [rd ds]. simpl in Hcase, Hds, Hiff, Hroot. cbn [root parts].
  assert (Hne' : app ds L <> []) by (destruct ds; [exact HL|discriminate]).
  assert (HgA : Forall (fun x => good_part x = true) (app ds L))
    by (apply Forall_app; split; assumption).
  destruct Hroot as [-> | Hr].
  - destruct Hcase as [Hs | ->]; [rewrite (proj1 Hiff eq_refl) in Hs; discriminate|].
    cbn [app] in *. rewrite (path_str_rel L HL).
    replace (prefix "" (join "/" L)) with true by (destruct (join "/" L); reflexivity).
    change (true && true) with true. cbv beta iota.
    unfold path_div. rewrite path_of_join_rel by assumption.
    cbv zeta. cbn [root parts truthy app]. cbv beta iota.
    rewrite path_str_rel by assumption. reflexivity.
  - assert (Hs : path_str (mkPath rd (app ds L)) = rd ++ join "/" (app ds L))
      by (destruct Hr as [-> | ->]; reflexivity).
    rewrite Hs.
    replace (prefix "" (rd ++ join "/" (app ds L))) with true
      by (destruct (rd ++ join "/" (app ds L)); reflexivity).
    change (true && true) with true. cbv beta iota.
    unfold path_div. rewrite path_of_join_abs by assumption.
    cbv zeta. cbn [root parts].
    replace (truthy rd) with true by (destruct Hr as [-> | ->]; reflexivity).
    cbv beta iota. rewrite Hs. reflexivity.
Qed.

(** The default [--output-dir .] with an empty [image_server_path]. *)
Lemma upscaler_reads_saved_path_witness :
  local_asset_path "." "/art/" "original" "f.png" = "art/original/f.png" /\
  upscaler_local_path "." EmptyString (local_asset_path "." "/art/" "original" "f.png")
    = Some "art/original/f.png".
Proof.
  split; [vm_compute; reflexivity|].
  rewrite (upscaler_reads_saved_path "." "/art/" "f.png" EmptyString);
    [vm_compute; reflexivity|reflexivity|right; reflexivity|reflexivity|reflexivity].
Defined.

(* ================================================================= *)
(** ** Image type detection *)

Import Art.

Lemma startswith_cons : forall c s d p,
  startswith (String c s) (String d p) = (Ascii.eqb c d && startswith s p)%bool.
Proof.
  intros c s d p. unfold startswith. cbn [String.prefix].
  destruct (Ascii.ascii_dec d c) as [->|Hn].
  - rewrite Ascii.eqb_refl. reflexivity.
  - destruct (Ascii.eqb c d) eqn:E; [|reflexivity].
    apply Ascii.eqb_eq in E. congruence.
Qed.

(** When Pillow cannot open the bytes, a ["RIFF"] header of at most 12
    bytes is never taken for WebP (the check needs more than 12 bytes):
    the result is [application/octet-stream] with no extension. *)
Theorem image_type_short_riff : forall pf b,
  pf b = None -> startswith b "RIFF" = true -> String.length b <= 12 ->
  get_image_mime_type_and_extension pf b = ("application/octet-stream", "").
Proof.
  intros pf b Hpf Hr Hl. unfold get_image_mime_type_and_extension. rewrite Hpf.
  destruct b as [|c b]; [discriminate|].
  change "RIFF" with (String "R" "IFF") in Hr.
  rewrite startswith_cons in Hr. apply andb_prop in Hr as [Hc _].
  apply Ascii.eqb_eq in Hc. subst c.
  replace (Nat.ltb 12 (String.length (String "R" b))) with false
    by (symmetry; apply Nat.ltb_ge; exact Hl).
  rewrite andb_false_r, andb_false_l. reflexivity.
Qed.

(** As above, on six bytes that Pillow does not open. *)
Lemma image_type_short_riff_witness :
  let b := "RIFFab" in
  (fun _ : bytes => @None string) b = None /\ startswith b "RIFF" = true /\
  String.length b <= 12 /\
  get_image_mime_type_and_extension (fun _ => None) b = ("application/octet-stream", "").
Proof.
  cbv zeta. split; [reflexivity|]. split; [reflexivity|]. split; [cbn; lia|].
  apply (image_type_short_riff (fun _ => None) "RIFFab"); [reflexivity|reflexivity|cbn; lia].
Defined.
